(** * django-pjax: a shallow embedding of [djpjax.py]

    The module adapts Django's template-response pipeline to PJAX
    requests.  Python objects are modelled by records, dictionaries by
    [gmap], exceptions by an error monad, and the in-place mutation of the
    parsed template and of the render context by explicit state passing. *)

From Stdlib Require Import ZArith Ascii String List Lia.
From stdpp Require Import base option list gmap strings pretty.

Local Open Scope string_scope.

(** ** Exceptions and the error monad *)

Inductive exn :=
  | TypeError (msg : string)
  | KeyError (msg : string)
  | AttributeError (msg : string)
  | TemplateSyntaxError (msg : string)
  | TemplateDoesNotExist (msg : string)
  | ImproperlyConfigured (msg : string).

Inductive result (A : Type) :=
  | Ok (a : A)
  | Raise (e : exn).
Arguments Ok {A} a.
Arguments Raise {A} e.

#[global] Instance result_ret : MRet result := λ A a, Ok a.
#[global] Instance result_bind : MBind result := λ A B k m,
  match m with
  | Ok a => k a
  | Raise e => Raise e
  end.

Definition is_Ok {A} (m : result A) : Prop := ∃ a, m = Ok a.
Definition raises {A} (m : result A) : Prop := ∃ e, m = Raise e.

(** ** Python values
    The scalar values that occur as request META entries and as template
    context values. *)

Inductive pyval :=
  | PNone
  | PBool (b : bool)
  | PInt (z : Z)
  | PStr (s : string).

(** Python truth value testing. *)
Definition truthy (v : pyval) : bool :=
  match v with
  | PNone => false
  | PBool b => b
  | PInt z => negb (z =? 0)%Z
  | PStr s => negb (String.eqb s "")
  end.

(** [str(v)], as used by the [%s] conversion. *)
Definition py_str (v : pyval) : string :=
  match v with
  | PNone => "None"
  | PBool true => "True"
  | PBool false => "False"
  | PInt z => pretty z
  | PStr s => s
  end.

(** An argument that is either [None] or a string. *)
Definition truthy_str (o : option string) : bool :=
  match o with
  | None => false
  | Some s => negb (String.eqb s "")
  end.

Definition str_of (o : option string) : string :=
  match o with
  | None => "None"
  | Some s => s
  end.

(** ** String primitives used by the template-name rewriting *)

(** [c in s] for a one-character string [c]. *)
Fixpoint str_contains (c : ascii) (s : string) : bool :=
  match s with
  | EmptyString => false
  | String a r => Ascii.eqb a c || str_contains c r
  end.

(** [s.rsplit(c, 1)]: split once, at the last occurrence of [c]. *)
Fixpoint rsplit1 (c : ascii) (s : string) : list string :=
  match s with
  | EmptyString => [EmptyString]
  | String a r =>
      match rsplit1 c r with
      | [x; y] => [String a x; y]
      | _ => if Ascii.eqb a c then [EmptyString; r] else [s]
      end
  end.

Definition dot : ascii := "."%char.

(** The one-character string written ["\n"] in Python. *)
Definition newline : string := String (ascii_of_nat 10) EmptyString.

(** ** [_pjaxify_template_name] (djpjax.py, lines 161-166)

    The format ["%s-pjax.%s"] takes the two parts of the split; a name that
    contains a dot always splits in two ([rsplit1_two_parts] below), so the
    last branch of the [match] is never taken. *)

Definition _pjaxify_template_name (name : string) : string :=
  if str_contains dot name then
    match rsplit1 dot name with
    | [stem; ext] => stem ++ "-pjax." ++ ext
    | _ => name
    end
  else name ++ "-pjax".

(** ** The parsed template: Django's node tree

    A [NodeList] object carries its class, which [patch_tree] overwrites;
    the [block_name] attribute assigned together with the class is kept as
    the argument of the class tag.  [BlockNode] and [WithNode] expose their
    children through an attribute called [nodelist]; [IfEqualNode], which
    compares a variable with a string literal, keeps them in
    [nodelist_true] and [nodelist_false]; [TextNode] has no children.
    [FilterNode] and [CacheNode] also expose a [nodelist]: the first passes
    what the node list renders to through its filters, given here as the
    function on that text; the second renders the node list only when the
    fragment cache has no value for it, and [cached] is what the cache
    holds when the template is rendered.  The model covers a template
    rendered on its own, without [extends]. *)

Inductive NodeListClass :=
  | NodeList_class
  | PJAXBlockNodeList (block_name : string).

Inductive Node :=
  | TextNode (s : string)
  | BlockNode (name : string) (nodelist : NodeList)
  | WithNode (var : string) (value : pyval) (nodelist : NodeList)
  | IfEqualNode (var1 var2 : string) (negate : bool)
      (nodelist_true nodelist_false : NodeList)
  | FilterNode (filter_expr : string → string) (nodelist : NodeList)
  | CacheNode (cached : option string) (nodelist : NodeList)
with NodeList :=
  | mkNodeList (class : NodeListClass) (nodes : list Node).

Definition nl_class (nl : NodeList) : NodeListClass :=
  match nl with mkNodeList c _ => c end.
Definition nl_nodes (nl : NodeList) : list Node :=
  match nl with mkNodeList _ ns => ns end.
Definition set_class (c : NodeListClass) (nl : NodeList) : NodeList :=
  mkNodeList c (nl_nodes nl).

Record Template := { nodelist : NodeList }.

(** ** [patch_tree] (djpjax.py, lines 43-50)

    The loop mutates the node objects in place; the model returns the tree
    after the loop. *)

Fixpoint patch_tree (target_blocks : list string) (nl : NodeList) : NodeList :=
  match nl with
  | mkNodeList c ns =>
      mkNodeList c (List.map (patch_node target_blocks) ns)
  end
with patch_node (target_blocks : list string) (node : Node) : Node :=
  match node with
  | BlockNode name nl =>
      if bool_decide (name ∈ target_blocks)
      then BlockNode name (set_class (PJAXBlockNodeList name) nl)
      else BlockNode name (patch_tree target_blocks nl)
  | WithNode var value nl => WithNode var value (patch_tree target_blocks nl)
  | FilterNode filter_expr nl =>
      FilterNode filter_expr (patch_tree target_blocks nl)
  | CacheNode cached nl => CacheNode cached (patch_tree target_blocks nl)
  | IfEqualNode _ _ _ _ _ => node
  | TextNode _ => node
  end.

(** ** Template names

    What [TemplateResponse.template_name] may hold: a name, a list or a
    tuple of names, a compiled [Template], or [None]. *)

Inductive TemplateVar :=
  | TStr (name : string)
  | TList (names : list string)
  | TTuple (names : list string)
  | TTemplate (t : Template)
  | TNone.

Definition truthy_template_var (v : TemplateVar) : bool :=
  match v with
  | TStr s => negb (String.eqb s "")
  | TList l | TTuple l => negb (Nat.eqb (length l) 0)
  | TTemplate _ => true
  | TNone => false
  end.

(** ** [_pjaxify_template_var] (djpjax.py, lines 153-158) *)

Definition _pjaxify_template_var (template_var : TemplateVar) : TemplateVar :=
  match template_var with
  | TList names => TList (List.map _pjaxify_template_name names)
  | TTuple names => TTuple (List.map _pjaxify_template_name names)
  | TStr name => TStr (_pjaxify_template_name name)
  | TTemplate _ | TNone => template_var
  end.

(** ** Requests and responses *)

Record HttpRequest := {
  method : string;
  path : string;
  GET : gmap string string;
  POST : gmap string string;
  META : gmap string pyval;
}.

(** [request.META.get('HTTP_X_PJAX', False)], tested for truth. *)
Definition is_pjax (request : HttpRequest) : bool :=
  truthy (default (PBool false) (META request !! "HTTP_X_PJAX")).

Inductive ResponseClass :=
  | TemplateResponse
  | PJAXBlockTemplateResponse.

(** A template response object.  [context_data] is [None] when the view
    passed no context.  The three attributes read by
    [PJAXBlockTemplateResponse.rendered_content] are [None] until
    [pjax_block] assigns them. *)
Record Response := {
  __class__ : ResponseClass;
  template_name : TemplateVar;
  context_data : option (gmap string pyval);
  status_code : Z;
  headers : gmap string string;
  block_name : option string;
  title_variable : option string;
  title_block : option string;
}.

Definition set___class__ (c : ResponseClass) (r : Response) : Response :=
  {| __class__ := c; template_name := template_name r;
     context_data := context_data r; status_code := status_code r;
     headers := headers r; block_name := block_name r;
     title_variable := title_variable r; title_block := title_block r |}.
Definition set_template_name (t : TemplateVar) (r : Response) : Response :=
  {| __class__ := __class__ r; template_name := t;
     context_data := context_data r; status_code := status_code r;
     headers := headers r; block_name := block_name r;
     title_variable := title_variable r; title_block := title_block r |}.
Definition set_context_data (d : option (gmap string pyval)) (r : Response)
  : Response :=
  {| __class__ := __class__ r; template_name := template_name r;
     context_data := d; status_code := status_code r;
     headers := headers r; block_name := block_name r;
     title_variable := title_variable r; title_block := title_block r |}.
Definition set_block_name (b : option string) (r : Response) : Response :=
  {| __class__ := __class__ r; template_name := template_name r;
     context_data := context_data r; status_code := status_code r;
     headers := headers r; block_name := b;
     title_variable := title_variable r; title_block := title_block r |}.
Definition set_title_variable (b : option string) (r : Response) : Response :=
  {| __class__ := __class__ r; template_name := template_name r;
     context_data := context_data r; status_code := status_code r;
     headers := headers r; block_name := block_name r;
     title_variable := b; title_block := title_block r |}.
Definition set_title_block (b : option string) (r : Response) : Response :=
  {| __class__ := __class__ r; template_name := template_name r;
     context_data := context_data r; status_code := status_code r;
     headers := headers r; block_name := block_name r;
     title_variable := title_variable r; title_block := b |}.

(** ** The decorators

    A view takes the request and its remaining arguments and returns a
    response or raises. *)

Section Decorators.
Context {Args : Type}.

Definition View : Type := HttpRequest → Args → result Response.

(** [pjax_block] (djpjax.py, lines 87-102) *)
Definition pjax_block_view (block : option string)
    (title_variable title_block : option string) (view : View) : View :=
  λ request args,
    resp ← view request args;
    if is_pjax request then
      let resp := set___class__ PJAXBlockTemplateResponse resp in
      let resp := set_block_name block resp in
      let resp := set_title_variable title_variable resp in
      let resp := set_title_block title_block resp in
      Ok resp
    else Ok resp.

Definition pjax_block (block : option string)
    (title_variable title_block : option string)
  : result (View → View) :=
  if truthy_str title_variable && truthy_str title_block then
    Raise (TypeError ("Only one of 'title_variable' and 'title_block' "
                      ++ "may be passed to pjax decorator."))
  else Ok (pjax_block_view block title_variable title_block).

(** [pjax] (djpjax.py, lines 104-120) *)
Definition pjax (pjax_template : TemplateVar) (view : View) : View :=
  λ request args,
    resp ← view request args;
    if is_pjax request then
      if truthy_template_var pjax_template
      then Ok (set_template_name pjax_template resp)
      else Ok (set_template_name
                 (_pjaxify_template_var (template_name resp)) resp)
    else Ok resp.

(** [pjaxtend] (djpjax.py, lines 122-137).  The item assignment
    [resp.context_data[context_var] = ...] needs a dictionary. *)
Definition setitem_context_data (key : string) (v : pyval) (r : Response)
  : result Response :=
  match context_data r with
  | Some d => Ok (set_context_data (Some (<[key := v]> d)) r)
  | None =>
      Raise (TypeError "'NoneType' object does not support item assignment")
  end.

Definition pjaxtend (parent pjax_parent : pyval) (context_var : string)
    (view : View) : View :=
  λ request args,
    resp ← view request args;
    if is_pjax request then setitem_context_data context_var pjax_parent resp
    else if truthy parent then setitem_context_data context_var parent resp
    else Ok resp.

End Decorators.

(** Default arguments of [pjaxtend]. *)
Definition pjaxtend_default {Args} : @View Args → @View Args :=
  pjaxtend (PStr "base.html") (PStr "pjax.html") "parent".

(** ** [PJAXResponseMixin] (djpjax.py, lines 139-150)

    [TemplateResponseMixin] is the interface of Django's class-based views
    that the mixin overrides; [super] is whatever class follows it in the
    method resolution order. *)

Class TemplateResponseMixin (V : Type) := {
  get_template_names : V → result TemplateVar;
}.

Record PJAXResponseView (V : Type) := {
  super : V;
  request : HttpRequest;
  pjax_template_name : option string;
}.
Arguments super {V} _.
Arguments request {V} _.
Arguments pjax_template_name {V} _.

#[global] Instance PJAXResponseMixin {V} `{TemplateResponseMixin V}
  : TemplateResponseMixin (PJAXResponseView V) := {|
  get_template_names self :=
    names ← get_template_names (super self);
    if is_pjax (request self) then
      if truthy_str (pjax_template_name self)
      then Ok (TList (option_list (pjax_template_name self)))
      else Ok (_pjaxify_template_var names)
    else Ok names
|}.

(** Django's own [TemplateResponseMixin.get_template_names], for a view
    class that sets [template_name]. *)
Record TemplateView := {
  view_template_name : option string;
}.

#[global] Instance TemplateView_mixin : TemplateResponseMixin TemplateView := {|
  get_template_names self :=
    match view_template_name self with
    | None =>
        Raise (ImproperlyConfigured
                 ("TemplateResponseMixin requires either a definition of "
                  ++ "'template_name' or an implementation of "
                  ++ "'get_template_names()'"))
    | Some name => Ok (TList [name])
    end
|}.

(** ** Rendering

    [Context] is Django's template context: the variables and the render
    context.  The render context entry ["pjax_captured_blocks"] holds the
    dictionary that [rendered_content] also keeps in its local variable
    [captured_blocks]; both name one object, so [rendered_content] reads
    the captured output back from the entry after rendering. *)

Record Context := {
  vars : gmap string pyval;
  render_context : gmap string (gmap string string);
}.

(** [''.join(node.render(context) for node in nodes)], threading the
    render context. *)
Definition render_each {S} (f : Node → S → string * S)
  : list Node → S → string * S :=
  fix go nodes rc :=
    match nodes with
    | [] => ("", rc)
    | node :: nodes =>
        let '(bit, rc) := f node rc in
        let '(bits, rc) := go nodes rc in
        (bit ++ bits, rc)
    end.

(** [PJAXBlockNodeList.render] after the call to [super] (djpjax.py,
    lines 18-21): a missing ["pjax_captured_blocks"] entry is the
    [KeyError] that is passed over. *)
Definition store_captured (block_name result : string)
    (rc : gmap string (gmap string string)) : gmap string (gmap string string) :=
  match rc !! "pjax_captured_blocks" with
  | Some captured_blocks =>
      <["pjax_captured_blocks" := <[block_name := result]> captured_blocks]> rc
  | None => rc
  end.

(** The test of [IfEqualNode.render]: the value of the variable [var1],
    [None] when it is unbound, against the string literal [var2]. *)
Definition ifequal_holds (vars : gmap string pyval) (var1 var2 : string)
    (negate : bool) : bool :=
  let equal :=
    match default PNone (vars !! var1) with
    | PStr s => String.eqb s var2
    | _ => false
    end in
  negate && negb equal || negb negate && equal.

(** [NodeList.render] dispatches on the class of the node list.  While a
    block is rendered the variable [block] is bound to the block node, an
    object equal to no string; [PBool true] stands for it. *)
Fixpoint NodeList_render (nl : NodeList) (vars : gmap string pyval)
    (rc : gmap string (gmap string string))
  : string * gmap string (gmap string string) :=
  match nl with
  | mkNodeList class nodes =>
      let '(result, rc) := render_each (λ n, Node_render n vars) nodes rc in
      match class with
      | NodeList_class => (result, rc)
      | PJAXBlockNodeList block_name =>
          (result, store_captured block_name result rc)
      end
  end
with Node_render (node : Node) (vars : gmap string pyval)
    (rc : gmap string (gmap string string))
  : string * gmap string (gmap string string) :=
  match node with
  | TextNode s => (s, rc)
  | BlockNode _ nl => NodeList_render nl (<["block" := PBool true]> vars) rc
  | WithNode var value nl => NodeList_render nl (<[var := value]> vars) rc
  | IfEqualNode var1 var2 negate nl_true nl_false =>
      if ifequal_holds vars var1 var2 negate
      then NodeList_render nl_true vars rc
      else NodeList_render nl_false vars rc
  | FilterNode filter_expr nl =>
      let '(output, rc) := NodeList_render nl vars rc in
      (filter_expr output, rc)
  | CacheNode cached nl =>
      match cached with
      | Some value => (value, rc)
      | None => NodeList_render nl vars rc
      end
  end.

Definition Template_render (t : Template) (context : Context)
  : string * gmap string (gmap string string) :=
  NodeList_render (nodelist t) (vars context) (render_context context).

(** A log of the calls to [Template.render], kept beside the Python state
    to count them. *)
Inductive Event :=
  | TemplateRendered (output : string).

(** Line 82: ["<title>%s</title>\n" % title if title else ""]. *)
Definition title_html (title : pyval) : string :=
  if truthy title then "<title>" ++ py_str title ++ "</title>" ++ newline
  else "".

(** The messages of the exceptions that [rendered_content] raises (lines
    62-63, 70-71 and 77-78). *)
Definition block_missing_msg (self : Response) : string :=
  "PJAX block '" ++ str_of (block_name self)
  ++ "' does not exist or was not rendered".
Definition title_block_missing_msg (self : Response) : string :=
  "PJAX title block '" ++ str_of (title_block self)
  ++ "' does not exist or was not rendered".
Definition title_variable_missing_msg (self : Response) : string :=
  "PJAX title variable '" ++ str_of (title_variable self)
  ++ "' not found in context".

Section Rendering.
(** The template loader and the construction of the context from
    [context_data] belong to the host framework. *)
Variable get_template : string → option Template.
Variable resolve_context : option (gmap string pyval) → gmap string pyval.

Definition select_template (names : list string) : result Template :=
  match list_find (λ t, is_Some t) (get_template <$> names) with
  | Some (_, Some t) => Ok t
  | _ => Raise (TemplateDoesNotExist (String.concat ", " names))
  end.

(** [resolve_template] hands back whatever is neither a name nor a list of
    names, [None] included. *)
Definition resolve_template (template : TemplateVar)
  : result (option Template) :=
  match template with
  | TList names | TTuple names => t ← select_template names; Ok (Some t)
  | TStr name =>
      match get_template name with
      | Some t => Ok (Some t)
      | None => Raise (TemplateDoesNotExist name)
      end
  | TTemplate t => Ok (Some t)
  | TNone => Ok None
  end.

(** [target_blocks = [n for n in (self.block_name, self.title_block) if n]] *)
Definition target_blocks (self : Response) : list string :=
  List.flat_map (λ n, if truthy_str n then option_list n else [])
                [block_name self; title_block self].

(** [d[key]] for an attribute value [key] that is [None] or a string;
    [None] is never a key of the dictionaries at hand. *)
Definition getitem {V} (d : gmap string V) (key : option string) : option V :=
  key ≫= (d !!.).

(** Lines 58-84: what [rendered_content] does once the template has been
    rendered, given the captured blocks and the context variables. *)
Definition assemble (self : Response) (captured_blocks : gmap string string)
    (context : gmap string pyval) : result string :=
  target_block_content ←
    match getitem captured_blocks (block_name self) with
    | Some content => Ok content
    | None =>
        Raise (TemplateSyntaxError (block_missing_msg self))
    end;
  title ←
    (if truthy_str (title_block self) then
       match getitem captured_blocks (title_block self) with
       | Some t => Ok (PStr t)
       | None =>
           Raise (TemplateSyntaxError (title_block_missing_msg self))
       end
     else if truthy_str (title_variable self) then
       match getitem context (title_variable self) with
       | Some t => Ok t
       | None =>
           Raise (KeyError (title_variable_missing_msg self))
       end
     else Ok PNone);
  Ok (title_html title ++ target_block_content).

(** Lines 36-56: build the context, register the dictionary of captured
    blocks, patch the tree and render the template.  Returns the page
    that [Template.render] produced and the captured blocks. *)
Definition render_and_capture (self : Response) (template : Template)
  : string * gmap string string :=
  let context :=
    {| vars := resolve_context (context_data self);
       render_context := {["pjax_captured_blocks" := ∅]} |} in
  let template :=
    {| nodelist := patch_tree (target_blocks self) (nodelist template) |} in
  let '(page, rc) := Template_render template context in
  (page, default ∅ (rc !! "pjax_captured_blocks")).

(** [PJAXBlockTemplateResponse.rendered_content] (lines 27-84), with the
    log of the calls to [Template.render]. *)
Definition PJAXBlock_rendered_content_log (self : Response)
  : list Event * result string :=
  match resolve_template (template_name self) with
  | Raise e => ([], Raise e)
  | Ok None =>
      (* line 52: [template.nodelist] *)
      ([], Raise (AttributeError
                    "'NoneType' object has no attribute 'nodelist'"))
  | Ok (Some template) =>
      let '(page, captured_blocks) := render_and_capture self template in
      ([TemplateRendered page],
       assemble self captured_blocks (resolve_context (context_data self)))
  end.

(** [SimpleTemplateResponse.rendered_content], the inherited property. *)
Definition TemplateResponse_rendered_content_log (self : Response)
  : list Event * result string :=
  match resolve_template (template_name self) with
  | Raise e => ([], Raise e)
  | Ok None =>
      ([], Raise (AttributeError "'NoneType' object has no attribute 'render'"))
  | Ok (Some template) =>
      let context :=
        {| vars := resolve_context (context_data self);
           render_context := ∅ |} in
      let '(page, _) := Template_render template context in
      ([TemplateRendered page], Ok page)
  end.

Definition rendered_content_log (self : Response)
  : list Event * result string :=
  match __class__ self with
  | TemplateResponse => TemplateResponse_rendered_content_log self
  | PJAXBlockTemplateResponse => PJAXBlock_rendered_content_log self
  end.

Definition rendered_content (self : Response) : result string :=
  snd (rendered_content_log self).

End Rendering.

(** ** Notions used to state the properties *)

(** The rewriting rule for one template name, in words: insert ["-pjax"]
    before the extension after the last dot, or append it when the name has
    no dot. *)
Definition pjax_name_rule (name name' : string) : Prop :=
  (∀ stem ext, name = stem ++ "." ++ ext → str_contains dot ext = false →
     name' = stem ++ "-pjax." ++ ext) ∧
  (str_contains dot name = false → name' = name ++ "-pjax").

(** The rule applied to whatever a template variable holds, keeping the
    container. *)
Definition names_rewritten (v v' : TemplateVar) : Prop :=
  match v, v' with
  | TStr n, TStr n' => pjax_name_rule n n'
  | TList l, TList l' => Forall2 pjax_name_rule l l'
  | TTuple l, TTuple l' => Forall2 pjax_name_rule l l'
  | TTemplate t, TTemplate t' => t = t'
  | TNone, TNone => True
  | _, _ => False
  end.

(** Two requests agree on the presence and on the truth value of the
    [HTTP_X_PJAX] entry of [META]. *)
Definition same_pjax_header (r1 r2 : HttpRequest) : Prop :=
  (is_Some (META r1 !! "HTTP_X_PJAX") ↔ is_Some (META r2 !! "HTTP_X_PJAX")) ∧
  (∀ v1 v2, META r1 !! "HTTP_X_PJAX" = Some v1 →
            META r2 !! "HTTP_X_PJAX" = Some v2 → truthy v1 = truthy v2).

(** *** Addressing node lists inside a tree *)

Definition child_nodelists (node : Node) : list NodeList :=
  match node with
  | TextNode _ => []
  | BlockNode _ nl => [nl]
  | WithNode _ _ nl => [nl]
  | IfEqualNode _ _ _ nl_true nl_false => [nl_true; nl_false]
  | FilterNode _ nl => [nl]
  | CacheNode _ nl => [nl]
  end.

(** A path names a node list: at each step the index of a node and the
    index of one of its child node lists. *)
Fixpoint subtree (nl : NodeList) (p : list (nat * nat)) : option NodeList :=
  match p with
  | [] => Some nl
  | (i, j) :: p =>
      node ← nl_nodes nl !! i;
      child ← child_nodelists node !! j;
      subtree child p
  end.

(** [converted T nl p name]: the walk started on [nl] reaches, at path
    [p], the node list of a [BlockNode] called [name] with [name] among the
    targets [T].  The walk enters the [nodelist] of the blocks that do not
    match and of the other nodes that have one; it does not enter a
    matching block, nor the branches of an [IfEqualNode]. *)
Inductive converted (T : list string) : NodeList → list (nat * nat) → string → Prop :=
  | converted_here nl i name body :
      nl_nodes nl !! i = Some (BlockNode name body) →
      name ∈ T →
      converted T nl [(i, 0)] name
  | converted_in_block nl i name body p b :
      nl_nodes nl !! i = Some (BlockNode name body) →
      name ∉ T →
      converted T body p b →
      converted T nl ((i, 0) :: p) b
  | converted_in_with nl i var value body p b :
      nl_nodes nl !! i = Some (WithNode var value body) →
      converted T body p b →
      converted T nl ((i, 0) :: p) b
  | converted_in_filter nl i filter_expr body p b :
      nl_nodes nl !! i = Some (FilterNode filter_expr body) →
      converted T body p b →
      converted T nl ((i, 0) :: p) b
  | converted_in_cache nl i cached body p b :
      nl_nodes nl !! i = Some (CacheNode cached body) →
      converted T body p b →
      converted T nl ((i, 0) :: p) b.

(** The tree with the class of every node list reset to [NodeList]. *)
Fixpoint erase_classes (nl : NodeList) : NodeList :=
  match nl with
  | mkNodeList _ ns => mkNodeList NodeList_class (List.map erase_node ns)
  end
with erase_node (node : Node) : Node :=
  match node with
  | TextNode s => TextNode s
  | BlockNode name nl => BlockNode name (erase_classes nl)
  | WithNode var value nl => WithNode var value (erase_classes nl)
  | IfEqualNode var1 var2 negate t f =>
      IfEqualNode var1 var2 negate (erase_classes t) (erase_classes f)
  | FilterNode filter_expr nl => FilterNode filter_expr (erase_classes nl)
  | CacheNode cached nl => CacheNode cached (erase_classes nl)
  end.

(** Number of node lists in a tree, and number of calls of [patch_tree]
    that one call on the tree makes, itself included. *)
Fixpoint count_nodelists (nl : NodeList) : nat :=
  match nl with
  | mkNodeList _ ns => S (list_sum (List.map count_node ns))
  end
with count_node (node : Node) : nat :=
  match node with
  | TextNode _ => 0
  | BlockNode _ nl => count_nodelists nl
  | WithNode _ _ nl => count_nodelists nl
  | IfEqualNode _ _ _ t f => count_nodelists t + count_nodelists f
  | FilterNode _ nl => count_nodelists nl
  | CacheNode _ nl => count_nodelists nl
  end.

Fixpoint patch_tree_calls (target_blocks : list string) (nl : NodeList) : nat :=
  match nl with
  | mkNodeList _ ns =>
      S (list_sum (List.map (patch_node_calls target_blocks) ns))
  end
with patch_node_calls (target_blocks : list string) (node : Node) : nat :=
  match node with
  | BlockNode name nl =>
      if bool_decide (name ∈ target_blocks) then 0
      else patch_tree_calls target_blocks nl
  | WithNode _ _ nl => patch_tree_calls target_blocks nl
  | FilterNode _ nl => patch_tree_calls target_blocks nl
  | CacheNode _ nl => patch_tree_calls target_blocks nl
  | IfEqualNode _ _ _ _ _ => 0
  | TextNode _ => 0
  end.

(** *** The output of a block *)

(** What a node list renders to, whatever its patches. *)
Definition render_plain (nl : NodeList) (vars : gmap string pyval) : string :=
  fst (NodeList_render nl vars ∅).

Fixpoint last_some {A} (os : list (option A)) : option A :=
  match os with
  | [] => None
  | o :: os =>
      match last_some os with
      | Some a => Some a
      | None => o
      end
  end.

(** [block_output T b nl vars]: the rendered output of the block called
    [b] that the walk with targets [T] converts in [nl], when [nl] is
    rendered with the variables [vars] and rendering reaches it; the last
    one if there are several. *)
Fixpoint block_output (T : list string) (b : string) (nl : NodeList)
    (vars : gmap string pyval) : option string :=
  match nl with
  | mkNodeList _ ns =>
      last_some (List.map (λ n, block_output_node T b n vars) ns)
  end
with block_output_node (T : list string) (b : string) (node : Node)
    (vars : gmap string pyval) : option string :=
  match node with
  | BlockNode name body =>
      if bool_decide (name ∈ T) then
        if bool_decide (name = b)
        then Some (render_plain body (<["block" := PBool true]> vars))
        else None
      else block_output T b body (<["block" := PBool true]> vars)
  | WithNode var value body => block_output T b body (<[var := value]> vars)
  | FilterNode _ body => block_output T b body vars
  | CacheNode cached body =>
      match cached with
      | Some _ => None
      | None => block_output T b body vars
      end
  | IfEqualNode _ _ _ _ _ => None
  | TextNode _ => None
  end.

(** The template carries no patch besides those that the walk with
    targets [T] makes: it is as parsed, or was patched by earlier requests
    with the same targets. *)
Definition no_foreign_patches (T : list string) (nl : NodeList) : Prop :=
  patch_tree T nl = patch_tree T (erase_classes nl).


(** *** Notions for the further properties *)

(** The names of all the blocks of a tree, wherever they sit. *)
Fixpoint block_names (nl : NodeList) : list string :=
  match nl with
  | mkNodeList _ ns => List.flat_map block_names_node ns
  end
with block_names_node (node : Node) : list string :=
  match node with
  | TextNode _ => []
  | BlockNode name body => name :: block_names body
  | WithNode _ _ body => block_names body
  | IfEqualNode _ _ _ t f => (block_names t ++ block_names f)%list
  | FilterNode _ body => block_names body
  | CacheNode _ body => block_names body
  end.

(** [well_patched owner nl]: every node list of class [PJAXBlockNodeList]
    is the node list of a block, and its [block_name] is the name of that
    block.  [owner] is the name of the block that owns [nl], if any. *)
Definition class_ok (owner : option string) (c : NodeListClass) : bool :=
  match c with
  | NodeList_class => true
  | PJAXBlockNodeList n => bool_decide (owner = Some n)
  end.

Fixpoint well_patched (owner : option string) (nl : NodeList) : bool :=
  match nl with
  | mkNodeList c ns => class_ok owner c && forallb well_patched_node ns
  end
with well_patched_node (node : Node) : bool :=
  match node with
  | TextNode _ => true
  | BlockNode name body => well_patched (Some name) body
  | WithNode _ _ body => well_patched None body
  | IfEqualNode _ _ _ t f => well_patched None t && well_patched None f
  | FilterNode _ body => well_patched None body
  | CacheNode _ body => well_patched None body
  end.

(** The render context [rc'] differs from [rc] at most by captured blocks
    added or overwritten under an entry ["pjax_captured_blocks"] that [rc]
    already has. *)
Definition only_captures_added (rc rc' : gmap string (gmap string string))
  : Prop :=
  (∀ key, key ≠ "pjax_captured_blocks" → rc' !! key = rc !! key) ∧
  match rc !! "pjax_captured_blocks", rc' !! "pjax_captured_blocks" with
  | None, None => True
  | Some d, Some d' => ∀ b, is_Some (d !! b) → is_Some (d' !! b)
  | _, _ => False
  end.

(** *** The blocks that rendering reaches *)

(** [rendered_blocks nl vars]: every block that rendering [nl] with the
    variables [vars] reaches, by name, with what its node list renders to.
    It follows the rendering only: the branch of an [IfEqualNode] that is
    taken, the node list of a [CacheNode] without a cached value; it does
    not look at classes. *)
Fixpoint rendered_blocks (nl : NodeList) (vars : gmap string pyval)
  : list (string * string) :=
  match nl with
  | mkNodeList _ ns => List.flat_map (λ n, rendered_blocks_node n vars) ns
  end
with rendered_blocks_node (node : Node) (vars : gmap string pyval)
  : list (string * string) :=
  match node with
  | TextNode _ => []
  | BlockNode name body =>
      (rendered_blocks body (<["block" := PBool true]> vars)
       ++ [(name, render_plain body (<["block" := PBool true]> vars))])%list
  | WithNode var value body => rendered_blocks body (<[var := value]> vars)
  | IfEqualNode var1 var2 negate t f =>
      if ifequal_holds vars var1 var2 negate
      then rendered_blocks t vars
      else rendered_blocks f vars
  | FilterNode _ body => rendered_blocks body vars
  | CacheNode cached body =>
      match cached with
      | Some _ => []
      | None => rendered_blocks body vars
      end
  end.



(** ** Sample objects for the instances below *)

Definition sample_response : Response :=
  {| __class__ := TemplateResponse;
     template_name := TList ["blog/post.html"; "post"];
     context_data := Some {["page_title" := PStr "Hello"]};
     status_code := 200;
     headers := ∅;
     block_name := None;
     title_variable := None;
     title_block := None |}.

Definition sample_view : @View unit := λ _ _, Ok sample_response.

Definition pjax_request : HttpRequest :=
  {| method := "GET"; path := "/post/1/"; GET := ∅; POST := ∅;
     META := {["HTTP_X_PJAX" := PStr "true"]} |}.

Definition plain_request : HttpRequest :=
  {| method := "GET"; path := "/post/1/"; GET := ∅; POST := ∅;
     META := {["HTTP_HOST" := PStr "example.org"]} |}.

Definition other_pjax_request : HttpRequest :=
  {| method := "POST"; path := "/elsewhere/"; GET := {["q" := "x"]}; POST := ∅;
     META := {["HTTP_X_PJAX" := PBool true; "HTTP_HOST" := PStr "h"]} |}.

Definition plain (nodes : list Node) : NodeList :=
  mkNodeList NodeList_class nodes.

Definition sample_template : Template :=
  {| nodelist := plain
       [TextNode "<html><head><title>";
        BlockNode "title" (plain [TextNode "Post"]);
        TextNode "</title></head><body>";
        WithNode "user" (PStr "ann")
          (plain
             [BlockNode "content"
                (plain
                   [TextNode "<p>hello</p>";
                    IfEqualNode "user" "ann" false
                      (plain [BlockNode "greeting" (plain [TextNode "hi"])])
                      (plain [])])]);
        TextNode "</body></html>"] |}.

Definition sample_loader (name : string) : option Template :=
  if String.eqb name "blog/post.html" then Some sample_template else None.

Definition sample_resolve_context (d : option (gmap string pyval))
  : gmap string pyval := default ∅ d.

(** The response of [sample_view] after [pjax_block("content",
    title_block="title")] on a PJAX request, and the same with the block
    that sits inside the [IfEqualNode] as target. *)
Definition sample_pjax_response : Response :=
  set_title_block (Some "title")
    (set_title_variable None
       (set_block_name (Some "content")
          (set___class__ PJAXBlockTemplateResponse sample_response))).


(** PJAX responses that name a block the sample template does not have,
    and the empty name. *)
Definition sample_missing_response : Response :=
  set_block_name (Some "sidebar") sample_pjax_response.

Definition sample_empty_name_response : Response :=
  set_block_name (Some "") sample_pjax_response.


(** A template with a cached fragment and a filtered one. *)
Definition sample_cached_template : Template :=
  {| nodelist := plain
       [CacheNode (Some "<nav>cached</nav>")
          (plain [BlockNode "nav" (plain [TextNode "<nav>fresh</nav>"])]);
        FilterNode (λ s, "[" ++ s ++ "]")
          (plain [BlockNode "content" (plain [TextNode "body"])])] |}.

Definition sample_cached_response : Response :=
  set_title_block None
    (set_template_name (TTemplate sample_cached_template)
       sample_pjax_response).

Definition sample_nav_response : Response :=
  set_block_name (Some "nav") sample_cached_response.

(** A view that fails, and a response built without a context. *)
Definition failing_view : @View unit :=
  λ _ _, Raise (KeyError "pk").

Definition sample_response_no_context : Response :=
  set_context_data None sample_response.

Definition sample_view_no_context : @View unit :=
  λ _ _, Ok sample_response_no_context.

Definition sample_class_view : PJAXResponseView TemplateView :=
  {| super := {| view_template_name := Some "blog/post.html" |};
     request := pjax_request;
     pjax_template_name := None |}.

(** * Properties *)

(** ** Template names *)

Lemma rsplit1_no_sep c s : str_contains c s = false → rsplit1 c s = [s].
Proof.
  induction s as [|a r IH]; simpl; [done|].
  intros [Ha Hr]%orb_false_elim. by rewrite (IH Hr), Ha.
Qed.

Lemma rsplit1_last_sep c stem ext :
  str_contains c ext = false →
  rsplit1 c (stem ++ String c ext) = [stem; ext].
Proof.
  intros Hext. induction stem as [|a stem IH]; simpl.
  - by rewrite (rsplit1_no_sep _ _ Hext), Ascii.eqb_refl.
  - by rewrite IH.
Qed.

Lemma str_contains_app c s t :
  str_contains c (s ++ t) = str_contains c s || str_contains c t.
Proof.
  induction s as [|a s IH]; simpl; [done|]. by rewrite IH, orb_assoc.
Qed.

Lemma str_contains_sep c stem ext : str_contains c (stem ++ String c ext) = true.
Proof.
  rewrite str_contains_app. simpl. rewrite Ascii.eqb_refl.
  by rewrite orb_true_r.
Qed.

(** A name that contains a dot splits at its last dot. *)
Lemma str_contains_split c s :
  str_contains c s = true →
  ∃ stem ext, s = stem ++ String c ext ∧ str_contains c ext = false.
Proof.
  induction s as [|a r IH]; simpl; [done|].
  destruct (str_contains c r) eqn:Hr.
  - intros _. destruct (IH eq_refl) as (stem & ext & -> & Hext).
    by exists (String a stem), ext.
  - rewrite orb_false_r. intros ->%Ascii.eqb_eq. by exists EmptyString, r.
Qed.

Lemma rsplit1_two_parts c s :
  str_contains c s = true →
  ∃ stem ext, rsplit1 c s = [stem; ext] ∧ s = stem ++ String c ext.
Proof.
  intros (stem & ext & -> & Hext)%str_contains_split.
  exists stem, ext. split; [by apply rsplit1_last_sep|done].
Qed.

Lemma _pjaxify_template_name_dot stem ext :
  str_contains dot ext = false →
  _pjaxify_template_name (stem ++ "." ++ ext) = stem ++ "-pjax." ++ ext.
Proof.
  intros Hext. unfold _pjaxify_template_name.
  change ("." ++ ext) with (String dot ext).
  by rewrite str_contains_sep, (rsplit1_last_sep _ _ _ Hext).
Qed.

Lemma _pjaxify_template_name_no_dot name :
  str_contains dot name = false →
  _pjaxify_template_name name = name ++ "-pjax".
Proof. intros H. unfold _pjaxify_template_name. by rewrite H. Qed.

Lemma _pjaxify_template_name_rule name :
  pjax_name_rule name (_pjaxify_template_name name).
Proof.
  split.
  - intros stem ext -> Hext. by apply _pjaxify_template_name_dot.
  - apply _pjaxify_template_name_no_dot.
Qed.

Lemma Forall2_pjaxify names :
  Forall2 pjax_name_rule names (List.map _pjaxify_template_name names).
Proof.
  induction names; simpl; constructor; auto using _pjaxify_template_name_rule.
Qed.

Lemma _pjaxify_template_var_rewritten v :
  names_rewritten v (_pjaxify_template_var v).
Proof.
  destruct v; simpl;
    auto using _pjaxify_template_name_rule, Forall2_pjaxify.
Qed.

Example _pjaxify_template_name_examples :
  _pjaxify_template_name "blog/post.html" = "blog/post-pjax.html" ∧
  _pjaxify_template_name "a.b.c" = "a.b-pjax.c" ∧
  _pjaxify_template_name "post" = "post-pjax" ∧
  _pjaxify_template_name ".hidden" = "-pjax.hidden" ∧
  _pjaxify_template_name "" = "-pjax".
Proof. repeat split. Qed.

(** ** The request header *)

Lemma same_pjax_header_is_pjax r1 r2 :
  same_pjax_header r1 r2 → is_pjax r1 = is_pjax r2.
Proof.
  intros [Hpres Htruth]. unfold is_pjax.
  destruct (META r1 !! "HTTP_X_PJAX") as [v1|] eqn:H1,
           (META r2 !! "HTTP_X_PJAX") as [v2|] eqn:H2; simpl.
  - by apply Htruth.
  - destruct Hpres as [Hp _]. destruct (Hp (mk_is_Some _ _ eq_refl)) as [? [=]].
  - destruct Hpres as [_ Hp]. destruct (Hp (mk_is_Some _ _ eq_refl)) as [? [=]].
  - done.
Qed.

(** ** [_pjaxify_template_var] *)

(** C10: [_pjaxify_template_var] keeps the shape of its argument.  A list
    gives a list and a tuple a tuple, of the same length, whose element at
    each index is [_pjaxify_template_name] of the element at that index; a
    string gives [_pjaxify_template_name] of the string; any other value
    comes back unchanged. *)
Theorem pjaxify_template_var_shape :
  (∀ names, ∃ names',
      _pjaxify_template_var (TList names) = TList names' ∧
      length names' = length names ∧
      ∀ i, names' !! i = _pjaxify_template_name <$> (names !! i)) ∧
  (∀ names, ∃ names',
      _pjaxify_template_var (TTuple names) = TTuple names' ∧
      length names' = length names ∧
      ∀ i, names' !! i = _pjaxify_template_name <$> (names !! i)) ∧
  (∀ name,
      _pjaxify_template_var (TStr name) = TStr (_pjaxify_template_name name)) ∧
  (∀ t, _pjaxify_template_var (TTemplate t) = TTemplate t) ∧
  _pjaxify_template_var TNone = TNone.
Proof.
  repeat split; try done.
  - intros names. exists (List.map _pjaxify_template_name names).
    repeat split; [apply length_map|]. intros i. apply list_lookup_fmap.
  - intros names. exists (List.map _pjaxify_template_name names).
    repeat split; [apply length_map|]. intros i. apply list_lookup_fmap.
Qed.

(** ** The decorators *)

Section DecoratorProperties.
Context {Args : Type}.
Implicit Types (view : @View Args) (request : HttpRequest) (args : Args).


Lemma pjax_block_view_plain block tv tb view request args :
  is_pjax request = false →
  pjax_block_view block tv tb view request args = view request args.
Proof.
  intros Hp. unfold pjax_block_view.
  destruct (view request args); simpl; [by rewrite Hp|done].
Qed.

Lemma pjax_plain pjax_template view request args :
  is_pjax request = false →
  pjax pjax_template view request args = view request args.
Proof.
  intros Hp. unfold pjax.
  destruct (view request args); simpl; [by rewrite Hp|done].
Qed.

(** C3: on a request without a truthy [HTTP_X_PJAX] entry, the views made
    by [pjax_block] and by [pjax] return exactly what the wrapped view
    returns: the same response, with the same class, [template_name] and
    other attributes. *)
Theorem non_pjax_response_unchanged view request args :
  is_pjax request = false →
  (∀ block tv tb decorator,
     pjax_block block tv tb = Ok decorator →
     decorator view request args = view request args) ∧
  (∀ pjax_template,
     pjax pjax_template view request args = view request args).
Proof.
  intros Hp. split.
  - intros block tv tb decorator. unfold pjax_block.
    destruct (_ && _); [done|]. intros [= <-].
    by apply pjax_block_view_plain.
  - intros. by apply pjax_plain.
Qed.

(** C9: [pjax_block] raises [TypeError] exactly when [title_variable] and
    [title_block] are both truthy, and then yields no decorator; in every
    other case it returns the decorator. *)
Theorem pjax_block_type_error block tv tb :
  ((∃ msg, @pjax_block Args block tv tb = Raise (TypeError msg)) ↔
     truthy_str tv = true ∧ truthy_str tb = true) ∧
  (is_Ok (@pjax_block Args block tv tb) ↔
     ¬ (truthy_str tv = true ∧ truthy_str tb = true)) ∧
  (raises (@pjax_block Args block tv tb) ↔
     truthy_str tv = true ∧ truthy_str tb = true) ∧
  (¬ (truthy_str tv = true ∧ truthy_str tb = true) →
     @pjax_block Args block tv tb = Ok (pjax_block_view block tv tb)).
Proof.
  unfold pjax_block, is_Ok, raises. rewrite <- andb_true_iff.
  destruct (truthy_str tv && truthy_str tb); split_and!.
  - split; eauto.
  - split; [by intros [? [=]] | intros H; by destruct H].
  - split; eauto.
  - intros H; by destruct H.
  - split; [by intros [? [=]] | done].
  - split; [done | eauto].
  - split; [by intros [? [=]] | done].
  - done.
Qed.

End DecoratorProperties.

Lemma non_pjax_response_unchanged_witness :
  is_pjax plain_request = false ∧
  @pjax_block unit (Some "content") None (Some "title")
    = Ok (pjax_block_view (Some "content") None (Some "title")) ∧
  pjax_block_view (Some "content") None (Some "title")
    sample_view plain_request () = Ok sample_response ∧
  pjax (TStr "pjax.html") sample_view plain_request () = Ok sample_response.
Proof.
  split; [reflexivity|]. split; [reflexivity|].
  destruct (non_pjax_response_unchanged sample_view plain_request () eq_refl)
    as [Hblock Hpjax].
  split.
  - exact (Hblock (Some "content") None (Some "title") _ eq_refl).
  - exact (Hpjax (TStr "pjax.html")).
Defined.

(** C7: the decorators and the mixin look at the request only through the
    [HTTP_X_PJAX] entry of [META] and keep nothing between calls.  Two
    invocations whose wrapped views return the same response, on requests
    that agree on the presence and truth value of that entry, alter the
    response in the same way; likewise for the template names of the
    mixin. *)
Theorem alterations_depend_on_pjax_header_only {Args : Type}
    (view1 view2 : @View Args) (r1 r2 : HttpRequest) (a1 a2 : Args) :
  same_pjax_header r1 r2 →
  view1 r1 a1 = view2 r2 a2 →
  (∀ block tv tb,
     pjax_block_view block tv tb view1 r1 a1 =
     pjax_block_view block tv tb view2 r2 a2) ∧
  (∀ pjax_template,
     pjax pjax_template view1 r1 a1 = pjax pjax_template view2 r2 a2) ∧
  (∀ parent pjax_parent context_var,
     pjaxtend parent pjax_parent context_var view1 r1 a1 =
     pjaxtend parent pjax_parent context_var view2 r2 a2) ∧
  (∀ V (M : TemplateResponseMixin V) (super1 super2 : V) name,
     get_template_names super1 = get_template_names super2 →
     get_template_names
       {| super := super1; request := r1; pjax_template_name := name |} =
     get_template_names
       {| super := super2; request := r2; pjax_template_name := name |}).
Proof.
  intros Hhdr%same_pjax_header_is_pjax Hview. split_and!.
  - intros. unfold pjax_block_view. by rewrite Hview, Hhdr.
  - intros. unfold pjax. by rewrite Hview, Hhdr.
  - intros. unfold pjaxtend. by rewrite Hview, Hhdr.
  - intros V M super1 super2 name Hsuper. simpl. by rewrite Hsuper, Hhdr.
Qed.

Lemma alterations_depend_on_pjax_header_only_witness :
  same_pjax_header pjax_request other_pjax_request ∧
  sample_view pjax_request () = sample_view other_pjax_request () ∧
  pjax_block_view (Some "content") None (Some "title")
    sample_view pjax_request () =
  pjax_block_view (Some "content") None (Some "title")
    sample_view other_pjax_request ().
Proof.
  assert (Hhdr : same_pjax_header pjax_request other_pjax_request).
  { split.
    - split; intros _; eexists; reflexivity.
    - intros v1 v2 H1 H2. vm_compute in H1, H2.
      injection H1 as <-. injection H2 as <-. reflexivity. }
  split; [exact Hhdr|]. split; [reflexivity|].
  apply (alterations_depend_on_pjax_header_only
           sample_view sample_view pjax_request other_pjax_request () ()
           Hhdr eq_refl).
Defined.

(** ** The mixin *)

(** C4: [get_template_names] of a view class using [PJAXResponseMixin]
    returns what the superclass returns when the request has no truthy
    [HTTP_X_PJAX] entry.  With that entry, and template names [names] from
    the superclass, it returns the one-element list [[pjax_template_name]]
    when [pjax_template_name] is set, and otherwise [names] with every name
    rewritten by the ["-pjax"] rule, in a container of the same type. *)
Theorem get_template_names_pjax_mixin {V} `{TemplateResponseMixin V}
    (self : PJAXResponseView V) :
  (is_pjax (request self) = false →
     get_template_names self = get_template_names (super self)) ∧
  (∀ names,
     get_template_names (super self) = Ok names →
     is_pjax (request self) = true →
     (∀ name, pjax_template_name self = Some name → name ≠ "" →
        get_template_names self = Ok (TList [name])) ∧
     (truthy_str (pjax_template_name self) = false →
        get_template_names self = Ok (_pjaxify_template_var names) ∧
        names_rewritten names (_pjaxify_template_var names))).
Proof.
  split.
  - intros Hp. simpl. destruct (get_template_names (super self)); simpl;
      [by rewrite Hp|done].
  - intros names Hsuper Hp. simpl. rewrite Hsuper; simpl. rewrite Hp. split.
    + intros name -> Hne. simpl.
      destruct (String.eqb_spec name ""); [done|reflexivity].
    + intros ->. split; [done|]. apply _pjaxify_template_var_rewritten.
Qed.

Lemma get_template_names_pjax_mixin_witness :
  get_template_names (super sample_class_view) = Ok (TList ["blog/post.html"]) ∧
  is_pjax (request sample_class_view) = true ∧
  truthy_str (pjax_template_name sample_class_view) = false ∧
  get_template_names sample_class_view = Ok (TList ["blog/post-pjax.html"]).
Proof.
  split; [reflexivity|]. split; [reflexivity|]. split; [reflexivity|].
  destruct (get_template_names_pjax_mixin sample_class_view) as [_ Hpjax].
  destruct (Hpjax _ eq_refl eq_refl) as [_ Hrew].
  destruct (Hrew eq_refl) as [Hres _].
  rewrite Hres. reflexivity.
Defined.

(** ** The tree walk *)

(** Induction over a node tree: node lists and nodes together. *)
Lemma NodeList_tree_ind (P : NodeList → Prop) (Q : Node → Prop) :
  (∀ c ns, Forall Q ns → P (mkNodeList c ns)) →
  (∀ s, Q (TextNode s)) →
  (∀ name nl, P nl → Q (BlockNode name nl)) →
  (∀ var value nl, P nl → Q (WithNode var value nl)) →
  (∀ var1 var2 negate t f, P t → P f → Q (IfEqualNode var1 var2 negate t f)) →
  (∀ filter_expr nl, P nl → Q (FilterNode filter_expr nl)) →
  (∀ cached nl, P nl → Q (CacheNode cached nl)) →
  ∀ nl, P nl.
Proof.
  intros HNL HT HB HW HI HF HC.
  fix IH 1. intros [c ns]. apply HNL.
  induction ns as [|n ns IHns]; constructor; [|exact IHns].
  destruct n as [s|name nl|var value nl|var1 var2 negate t f
                |filter_expr nl|cached nl].
  - apply HT.
  - apply HB, IH.
  - apply HW, IH.
  - apply HI; apply IH.
  - apply HF, IH.
  - apply HC, IH.
Qed.

Lemma nl_nodes_patch_tree T nl :
  nl_nodes (patch_tree T nl) = List.map (patch_node T) (nl_nodes nl).
Proof. by destruct nl. Qed.

Lemma nl_class_patch_tree T nl : nl_class (patch_tree T nl) = nl_class nl.
Proof. by destruct nl. Qed.

Lemma subtree_set_class c nl p :
  p ≠ [] → subtree (set_class c nl) p = subtree nl p.
Proof. by destruct p as [|[i j] p]. Qed.

Lemma converted_not_root T nl name : ¬ converted T nl [] name.
Proof. inversion 1. Qed.

Lemma erase_patch_tree T nl :
  erase_classes (patch_tree T nl) = erase_classes nl.
Proof.
  revert nl.
  apply (NodeList_tree_ind
           (λ nl, erase_classes (patch_tree T nl) = erase_classes nl)
           (λ n, erase_node (patch_node T n) = erase_node n)).
  - intros c ns Hns. simpl. f_equal.
    induction Hns as [|n ns Hn _ IH]; simpl; [done|]. by rewrite Hn, IH.
  - done.
  - intros name [c ns] IH. simpl. case_bool_decide; simpl; [done|].
    simpl in IH. by rewrite IH.
  - intros var value nl IH. simpl. by rewrite IH.
  - done.
  - intros filter_expr nl IH. simpl. by rewrite IH.
  - intros cached nl IH. simpl. by rewrite IH.
Qed.

Lemma patch_tree_calls_le T nl :
  (patch_tree_calls T nl ≤ count_nodelists nl)%nat.
Proof.
  revert nl.
  apply (NodeList_tree_ind
           (λ nl, (patch_tree_calls T nl ≤ count_nodelists nl)%nat)
           (λ n, (patch_node_calls T n ≤ count_node n)%nat)).
  - intros c ns Hns. simpl. apply le_n_S.
    induction Hns as [|n ns Hn _ IH]; simpl; lia.
  - done.
  - intros name nl IH. simpl. case_bool_decide; lia.
  - done.
  - intros var1 var2 negate t f _ _. simpl. lia.
  - done.
  - done.
Qed.

Lemma patch_tree_at_path T p :
  ∀ nl sub, subtree nl p = Some sub →
    ∃ sub', subtree (patch_tree T nl) p = Some sub' ∧
      (∀ name, converted T nl p name →
         sub' = set_class (PJAXBlockNodeList name) sub) ∧
      ((∀ name, ¬ converted T nl p name) → nl_class sub' = nl_class sub).
Proof.
  induction p as [|[i j] p IH]; intros nl sub Hsub.
  - injection Hsub as <-. exists (patch_tree T nl). split_and!; [done| |].
    + intros name Hc. by apply converted_not_root in Hc.
    + intros _. apply nl_class_patch_tree.
  - simpl in Hsub. simpl. rewrite nl_nodes_patch_tree, list_lookup_fmap.
    destruct (nl_nodes nl !! i) as [n|] eqn:Hn; simpl in *; [|done].
    destruct n as [s|name body|var value body|var1 var2 negate t f
                  |filter_expr body|cached body];
      simpl in *.
    + done.
    + destruct j as [|j]; simpl in *; [|done].
      case_bool_decide as Hin; simpl.
      * destruct p as [|step p].
        -- injection Hsub as <-. eexists. split; [done|]. split.
           ++ intros b Hc. inversion Hc; simplify_eq; [done|..].
              all: by match goal with H : converted _ _ [] _ |- _ =>
                     apply converted_not_root in H end.
           ++ intros Hnone. destruct (Hnone name).
              by eapply converted_here.
        -- rewrite subtree_set_class by done. exists sub. split; [done|].
           split; [|done].
           intros b Hc. inversion Hc; by simplify_eq.
      * destruct (IH _ _ Hsub) as (sub' & Hsub' & Hconv & Hnot).
        exists sub'. split; [done|]. split.
        -- intros b Hc. apply Hconv. inversion Hc; simplify_eq; done.
        -- intros Hnone. apply Hnot. intros b Hc. apply (Hnone b).
           by eapply converted_in_block.
    + destruct j as [|j]; simpl in *; [|done].
      destruct (IH _ _ Hsub) as (sub' & Hsub' & Hconv & Hnot).
      exists sub'. split; [done|]. split.
      * intros b Hc. apply Hconv. inversion Hc; simplify_eq; done.
      * intros Hnone. apply Hnot. intros b Hc. apply (Hnone b).
        by eapply converted_in_with.
    + exists sub. split; [done|]. split; [|done].
      intros b Hc. inversion Hc; by simplify_eq.
    + destruct j as [|j]; simpl in *; [|done].
      destruct (IH _ _ Hsub) as (sub' & Hsub' & Hconv & Hnot).
      exists sub'. split; [done|]. split.
      * intros b Hc. apply Hconv. inversion Hc; simplify_eq; done.
      * intros Hnone. apply Hnot. intros b Hc. apply (Hnone b).
        by eapply converted_in_filter.
    + destruct j as [|j]; simpl in *; [|done].
      destruct (IH _ _ Hsub) as (sub' & Hsub' & Hconv & Hnot).
      exists sub'. split; [done|]. split.
      * intros b Hc. apply Hconv. inversion Hc; simplify_eq; done.
      * intros Hnone. apply Hnot. intros b Hc. apply (Hnone b).
        by eapply converted_in_cache.
Qed.

(** ** Rendering a patched tree *)

Lemma NodeList_render_unfold c ns vars rc :
  NodeList_render (mkNodeList c ns) vars rc =
    let '(result, rc) := render_each (λ n, Node_render n vars) ns rc in
    match c with
    | NodeList_class => (result, rc)
    | PJAXBlockNodeList block_name =>
        (result, store_captured block_name result rc)
    end.
Proof. reflexivity. Qed.

Lemma render_each_cons {S} (f : Node → S → string * S) n ns rc :
  render_each f (n :: ns) rc =
    let '(bit, rc) := f n rc in
    let '(bits, rc) := render_each f ns rc in
    (bit ++ bits, rc).
Proof. reflexivity. Qed.

Lemma NodeList_render_fst c ns vars rc :
  (NodeList_render (mkNodeList c ns) vars rc).1 =
  (render_each (λ n, Node_render n vars) ns rc).1.
Proof.
  rewrite NodeList_render_unfold.
  destruct (render_each _ ns rc) as [result rc']. by destruct c.
Qed.

(** The text that rendering produces depends neither on the classes of the
    node lists nor on the render context. *)
Lemma NodeList_render_output nl :
  ∀ vars rc rc',
    (NodeList_render nl vars rc).1 =
    (NodeList_render (erase_classes nl) vars rc').1.
Proof.
  revert nl.
  apply (NodeList_tree_ind
           (λ nl, ∀ vars rc rc',
              (NodeList_render nl vars rc).1 =
              (NodeList_render (erase_classes nl) vars rc').1)
           (λ n, ∀ vars rc rc',
              (Node_render n vars rc).1 =
              (Node_render (erase_node n) vars rc').1)).
  - intros c ns Hns vars rc rc'.
    change (erase_classes (mkNodeList c ns))
      with (mkNodeList NodeList_class (List.map erase_node ns)).
    rewrite !NodeList_render_fst. revert rc rc'.
    induction Hns as [|n ns Hn _ IH]; intros rc rc'; [done|].
    rewrite map_cons, !render_each_cons.
    specialize (Hn vars rc rc').
    destruct (Node_render n vars rc) as [bit rc1].
    destruct (Node_render (erase_node n) vars rc') as [bit' rc1'].
    specialize (IH rc1 rc1').
    destruct (render_each _ ns rc1) as [bits rc2].
    destruct (render_each _ (List.map erase_node ns) rc1') as [bits' rc2'].
    simpl in *. by subst.
  - done.
  - intros name nl IH vars rc rc'. apply IH.
  - intros var value nl IH vars rc rc'. apply IH.
  - intros var1 var2 negate t f IHt IHf vars rc rc'. simpl.
    destruct (ifequal_holds _ _ _ _); [apply IHt|apply IHf].
  - intros filter_expr nl IH vars rc rc'. simpl.
    specialize (IH vars rc rc').
    destruct (NodeList_render nl vars rc),
             (NodeList_render (erase_classes nl) vars rc').
    simpl in *. by subst.
  - intros cached nl IH vars rc rc'. simpl. destruct cached; [done|apply IH].
Qed.

Lemma render_plain_erase nl vars :
  render_plain (erase_classes nl) vars = render_plain nl vars.
Proof. unfold render_plain. symmetry. apply NodeList_render_output. Qed.

Lemma render_plain_eq nl vars rc :
  (NodeList_render nl vars rc).1 = render_plain nl vars.
Proof.
  unfold render_plain.
  by rewrite (NodeList_render_output nl vars rc ∅),
             (NodeList_render_output nl vars ∅ ∅).
Qed.

Lemma map_fixed_Forall {A} (f : A → A) (l : list A) :
  List.map f l = l → Forall (λ x, f x = x) l.
Proof.
  induction l as [|x l IH]; simpl; [constructor|].
  intros [= Hx Hl]. constructor; auto.
Qed.

Lemma erase_fixed_inv c ns :
  erase_classes (mkNodeList c ns) = mkNodeList c ns →
  c = NodeList_class ∧ Forall (λ n, erase_node n = n) ns.
Proof. simpl. intros [= <- Hns]. split; [done|]. by apply map_fixed_Forall. Qed.

(** Rendering a tree that carries no patch leaves the render context as it
    was. *)
Lemma NodeList_render_unpatched nl :
  erase_classes nl = nl →
  ∀ vars rc, (NodeList_render nl vars rc).2 = rc.
Proof.
  revert nl.
  apply (NodeList_tree_ind
           (λ nl, erase_classes nl = nl →
                  ∀ vars rc, (NodeList_render nl vars rc).2 = rc)
           (λ n, erase_node n = n →
                 ∀ vars rc, (Node_render n vars rc).2 = rc)).
  - intros c ns Hns [-> Hfresh]%erase_fixed_inv vars rc.
    rewrite NodeList_render_unfold.
    assert ((render_each (λ n, Node_render n vars) ns rc).2 = rc) as Hrc.
    { revert rc. induction Hns as [|n ns Hn _ IH]; intros rc; [done|].
      apply Forall_cons in Hfresh as [Hfn Hfresh].
      rewrite render_each_cons.
      specialize (Hn Hfn vars rc).
      destruct (Node_render n vars rc) as [bit rc1]. simpl in Hn. subst rc1.
      specialize (IH Hfresh rc).
      by destruct (render_each _ ns rc) as [bits rc2]. }
    by destruct (render_each _ ns rc).
  - done.
  - intros name nl IH [= Hnl] vars rc. by apply IH.
  - intros var value nl IH [= Hnl] vars rc. by apply IH.
  - intros var1 var2 negate t f IHt IHf [= Ht Hf] vars rc. simpl.
    destruct (ifequal_holds _ _ _ _); [by apply IHt|by apply IHf].
  - intros filter_expr nl IH [= Hnl] vars rc. simpl.
    specialize (IH Hnl vars rc). by destruct (NodeList_render nl vars rc).
  - intros cached nl IH [= Hnl] vars rc. simpl.
    destruct cached; [done|by apply IH].
Qed.

Lemma store_captured_present block_name result rc d :
  rc !! "pjax_captured_blocks" = Some d →
  store_captured block_name result rc =
    <["pjax_captured_blocks" := <[block_name := result]> d]> rc.
Proof. intros H. unfold store_captured. by rewrite H. Qed.

(** Rendering the patched tree records, for every name, the output of the
    last converted block of that name and keeps the other entries. *)
Lemma NodeList_render_captures T nl :
  erase_classes nl = nl →
  ∀ vars rc d, rc !! "pjax_captured_blocks" = Some d →
    ∃ d', (NodeList_render (patch_tree T nl) vars rc).2
            = <["pjax_captured_blocks" := d']> rc ∧
          ∀ b, d' !! b = match block_output T b nl vars with
                         | Some o => Some o
                         | None => d !! b
                         end.
Proof.
  revert nl.
  apply (NodeList_tree_ind
    (λ nl, erase_classes nl = nl →
       ∀ vars rc d, rc !! "pjax_captured_blocks" = Some d →
         ∃ d', (NodeList_render (patch_tree T nl) vars rc).2
                 = <["pjax_captured_blocks" := d']> rc ∧
               ∀ b, d' !! b = match block_output T b nl vars with
                              | Some o => Some o
                              | None => d !! b
                              end)
    (λ n, erase_node n = n →
       ∀ vars rc d, rc !! "pjax_captured_blocks" = Some d →
         ∃ d', (Node_render (patch_node T n) vars rc).2
                 = <["pjax_captured_blocks" := d']> rc ∧
               ∀ b, d' !! b = match block_output_node T b n vars with
                              | Some o => Some o
                              | None => d !! b
                              end)).
  - intros c ns Hns [-> Hfresh]%erase_fixed_inv vars rc d Hd.
    change (patch_tree T (mkNodeList NodeList_class ns))
      with (mkNodeList NodeList_class (List.map (patch_node T) ns)).
    rewrite NodeList_render_unfold.
    assert (∃ d',
      (render_each (λ n, Node_render n vars)
                   (List.map (patch_node T) ns) rc).2
        = <["pjax_captured_blocks" := d']> rc ∧
      ∀ b, d' !! b =
        match last_some (List.map (λ n, block_output_node T b n vars) ns) with
        | Some o => Some o
        | None => d !! b
        end) as (d' & Hrc & Hd').
    { revert rc d Hd.
      induction Hns as [|n ns Hn _ IH]; intros rc d Hd.
      - exists d. split; [|done]. simpl. by rewrite insert_id.
      - apply Forall_cons in Hfresh as [Hfn Hfresh].
        rewrite map_cons, render_each_cons.
        destruct (Hn Hfn vars rc d Hd) as (d1 & Hrc1 & Hd1).
        destruct (Node_render (patch_node T n) vars rc) as [bit rc1].
        simpl in Hrc1. subst rc1.
        destruct (IH Hfresh (<["pjax_captured_blocks" := d1]> rc) d1
                    (lookup_insert_eq _ _ _)) as (d2 & Hrc2 & Hd2).
        destruct (render_each _ (List.map (patch_node T) ns) _)
          as [bits rc2].
        simpl in Hrc2. subst rc2.
        exists d2. split; [simpl; by rewrite insert_insert_eq|].
        intros b. rewrite Hd2. simpl.
        destruct (last_some _); [done|]. apply Hd1. }
    exists d'. split; [|intros b; apply Hd'].
    by destruct (render_each _ (List.map (patch_node T) ns) rc).
  - intros s _ vars rc d Hd. exists d. split; [|done].
    simpl. by rewrite insert_id.
  - intros name body IH [= Hbody] vars rc d Hd.
    simpl. case_bool_decide as Hin.
    + destruct body as [c ns].
      apply erase_fixed_inv in Hbody as Hc. destruct Hc as [-> _].
      change (Node_render
                (BlockNode name (set_class (PJAXBlockNodeList name)
                                   (mkNodeList NodeList_class ns))) vars rc)
        with (NodeList_render (mkNodeList (PJAXBlockNodeList name) ns)
                (<["block" := PBool true]> vars) rc).
      pose proof (NodeList_render_unpatched _ Hbody
                    (<["block" := PBool true]> vars) rc) as Hsame.
      pose proof (render_plain_eq (mkNodeList NodeList_class ns)
                    (<["block" := PBool true]> vars) rc) as Hout.
      rewrite NodeList_render_unfold in Hsame, Hout |- *.
      destruct (render_each _ ns rc) as [result rc1].
      simpl in Hsame, Hout. subst rc1 result.
      eexists. split; [simpl; by apply store_captured_present|].
      intros b. case_bool_decide as Hb.
      * subst b. apply lookup_insert_eq.
      * by apply lookup_insert_ne.
    + by apply IH.
  - intros var value body IH [= Hbody] vars rc d Hd. by apply IH.
  - intros var1 var2 negate t f _ _ [= Ht Hf] vars rc d Hd.
    exists d. split; [|done]. simpl. rewrite insert_id by done.
    destruct (ifequal_holds _ _ _ _); by apply NodeList_render_unpatched.
  - intros filter_expr body IH [= Hbody] vars rc d Hd. simpl.
    destruct (IH Hbody vars rc d Hd) as (d' & Hrc & Hd').
    exists d'. split; [|done].
    by destruct (NodeList_render (patch_tree T body) vars rc).
  - intros cached body IH [= Hbody] vars rc d Hd. simpl.
    destruct cached; [|by apply IH].
    exists d. split; [|done]. simpl. by rewrite insert_id.
Qed.

Lemma erase_classes_idemp nl :
  erase_classes (erase_classes nl) = erase_classes nl.
Proof.
  revert nl.
  apply (NodeList_tree_ind
           (λ nl, erase_classes (erase_classes nl) = erase_classes nl)
           (λ n, erase_node (erase_node n) = erase_node n)).
  - intros c ns Hns. simpl. f_equal.
    induction Hns as [|n ns Hn _ IH]; simpl; [done|]. by rewrite Hn, IH.
  - done.
  - intros name nl IH. simpl. by rewrite IH.
  - intros var value nl IH. simpl. by rewrite IH.
  - intros var1 var2 negate t f IHt IHf. simpl. by rewrite IHt, IHf.
  - intros filter_expr nl IH. simpl. by rewrite IH.
  - intros cached nl IH. simpl. by rewrite IH.
Qed.

Lemma block_output_erase T b nl :
  ∀ vars, block_output T b (erase_classes nl) vars = block_output T b nl vars.
Proof.
  revert nl.
  apply (NodeList_tree_ind
    (λ nl, ∀ vars,
       block_output T b (erase_classes nl) vars = block_output T b nl vars)
    (λ n, ∀ vars,
       block_output_node T b (erase_node n) vars
       = block_output_node T b n vars)).
  - intros c ns Hns vars. simpl.
    induction Hns as [|n ns Hn _ IH]; simpl; [done|]. by rewrite IH, Hn.
  - done.
  - intros name nl IH vars. simpl.
    repeat case_bool_decide; try done; try apply IH.
    by rewrite render_plain_erase.
  - intros var value nl IH vars. apply IH.
  - done.
  - intros filter_expr nl IH vars. apply IH.
  - intros cached nl IH vars. simpl. destruct cached; [done|apply IH].
Qed.

Lemma patch_tree_idemp T nl :
  patch_tree T (patch_tree T nl) = patch_tree T nl.
Proof.
  revert nl.
  apply (NodeList_tree_ind
           (λ nl, patch_tree T (patch_tree T nl) = patch_tree T nl)
           (λ n, patch_node T (patch_node T n) = patch_node T n)).
  - intros c ns Hns. simpl. f_equal.
    induction Hns as [|n ns Hn _ IH]; simpl; [done|]. by rewrite Hn, IH.
  - done.
  - intros name nl IH. simpl. case_bool_decide as Hin; simpl.
    + by rewrite bool_decide_true.
    + by rewrite bool_decide_false, IH.
  - intros var value nl IH. simpl. by rewrite IH.
  - done.
  - intros filter_expr nl IH. simpl. by rewrite IH.
  - intros cached nl IH. simpl. by rewrite IH.
Qed.

(** A template as parsed carries no foreign patch, and the patches of a
    request are none for the later requests with the same targets. *)
Lemma no_foreign_patches_unpatched T nl :
  erase_classes nl = nl → no_foreign_patches T nl.
Proof. intros H. unfold no_foreign_patches. by rewrite H. Qed.

Lemma no_foreign_patches_patch_tree T nl :
  no_foreign_patches T nl → no_foreign_patches T (patch_tree T nl).
Proof.
  unfold no_foreign_patches. intros H.
  by rewrite patch_tree_idemp, erase_patch_tree.
Qed.

Lemma elem_of_target_blocks self name :
  name ∈ target_blocks self ↔
  name ≠ "" ∧ (block_name self = Some name ∨ title_block self = Some name).
Proof.
  unfold target_blocks. simpl. rewrite app_nil_r, elem_of_app.
  assert (∀ o : option string,
    name ∈ (if truthy_str o then option_list o else []) ↔
    name ≠ "" ∧ o = Some name) as Hone.
  { intros [s|]; simpl.
    - destruct (String.eqb_spec s ""); simpl.
      + rewrite elem_of_nil. split; [done|]. intros [? [= ->]]. done.
      + rewrite list_elem_of_singleton. split; [by intros ->|].
        by intros [_ [= ->]].
    - rewrite elem_of_nil. split; [done|]. by intros [_ ?]. }
  rewrite !Hone. tauto.
Qed.

Section RenderingProperties.
Variable get_template : string → option Template.
Variable resolve_context : option (gmap string pyval) → gmap string pyval.

(** The template is rendered in full, and the captured blocks are the
    outputs of the converted blocks. *)
Lemma render_and_capture_spec self template :
  (render_and_capture resolve_context self template).1 =
    render_plain (nodelist template) (resolve_context (context_data self)) ∧
  (no_foreign_patches (target_blocks self) (nodelist template) →
   ∀ b, (render_and_capture resolve_context self template).2 !! b =
        block_output (target_blocks self) b (nodelist template)
          (resolve_context (context_data self))).
Proof.
  unfold render_and_capture, Template_render. simpl.
  set (T := target_blocks self). set (nl := nodelist template).
  set (vars := resolve_context (context_data self)).
  set (rc := {["pjax_captured_blocks" := ∅]}).
  pose proof (render_plain_eq (patch_tree T nl) vars rc) as Hpage.
  split.
  - destruct (NodeList_render (patch_tree T nl) vars rc) as [page rc'].
    simpl in *. rewrite Hpage.
    by rewrite <- render_plain_erase, erase_patch_tree, render_plain_erase.
  - intros Hown b.
    destruct (NodeList_render_captures T (erase_classes nl)
                (erase_classes_idemp nl) vars rc ∅)
      as (d' & Hrc & Hd'); [apply lookup_singleton_eq|].
    rewrite <- Hown in Hrc.
    destruct (NodeList_render (patch_tree T nl) vars rc) as [page rc'].
    simpl in *. subst rc'. rewrite lookup_insert_eq. simpl.
    rewrite Hd', block_output_erase. by destruct (block_output _ _ _ _).
Qed.

Lemma PJAXBlock_rendered_content_log_resolved self template :
  resolve_template get_template (template_name self) = Ok (Some template) →
  PJAXBlock_rendered_content_log get_template resolve_context self =
    ([TemplateRendered
        (render_plain (nodelist template)
           (resolve_context (context_data self)))],
     assemble self (render_and_capture resolve_context self template).2
       (resolve_context (context_data self))).
Proof.
  intros Hres. unfold PJAXBlock_rendered_content_log. rewrite Hres.
  destruct (render_and_capture_spec self template) as [Hpage _].
  destruct (render_and_capture _ _ _) as [page captured].
  simpl in *. by subst.
Qed.

End RenderingProperties.

(** C6: [patch_tree] is total on node trees, and one call on a tree makes
    no more calls of itself than the tree has node lists.  With the targets
    of a response, which are its non-empty block name and title block name,
    it turns into [PJAXBlockNodeList] the node list of exactly the blocks
    named by a target that the walk reaches: the walk enters the node list
    of every other node that has one and does not enter a matching block,
    whose children stay as they are.  Every other node list keeps its
    class, and nothing but classes changes. *)
Theorem patch_tree_walk (self : Response) (nl : NodeList) :
  let T := target_blocks self in
  (∀ name, name ∈ T ↔
     name ≠ "" ∧ (block_name self = Some name ∨ title_block self = Some name)) ∧
  (∃ nl', patch_tree T nl = nl' ∧ erase_classes nl' = erase_classes nl) ∧
  (patch_tree_calls T nl ≤ count_nodelists nl)%nat ∧
  (∀ p sub, subtree nl p = Some sub →
     ∃ sub', subtree (patch_tree T nl) p = Some sub' ∧
       (∀ name, converted T nl p name →
          sub' = set_class (PJAXBlockNodeList name) sub) ∧
       ((∀ name, ¬ converted T nl p name) → nl_class sub' = nl_class sub)).
Proof.
  intros T. split_and!.
  - apply elem_of_target_blocks.
  - eexists. split; [done|]. apply erase_patch_tree.
  - apply patch_tree_calls_le.
  - intros p sub. apply patch_tree_at_path.
Qed.

(** ** Instances on the sample template *)

Lemma patch_tree_walk_witness :
  subtree (nodelist sample_template) [(3, 0); (0, 0)]
    = Some (plain [TextNode "<p>hello</p>";
                   IfEqualNode "user" "ann" false
                     (plain [BlockNode "greeting" (plain [TextNode "hi"])])
                     (plain [])]) ∧
  ∃ sub',
    subtree (patch_tree (target_blocks sample_pjax_response)
               (nodelist sample_template)) [(3, 0); (0, 0)] = Some sub' ∧
    nl_class sub' = PJAXBlockNodeList "content".
Proof.
  split; [reflexivity|].
  destruct (patch_tree_walk sample_pjax_response (nodelist sample_template))
    as (_ & _ & _ & Hpath).
  destruct (Hpath [(3, 0); (0, 0)] _ eq_refl) as (sub' & Hsub' & Hconv & _).
  exists sub'. split; [exact Hsub'|].
  rewrite (Hconv "content"); [reflexivity|].
  eapply converted_in_with; [reflexivity|].
  eapply converted_here; [reflexivity|].
  apply list_elem_of_here.
Defined.

(** * Further properties *)

(** ** Template names *)

Lemma str_length_app s t :
  String.length (s ++ t) = (String.length s + String.length t)%nat.
Proof. induction s as [|a s IH]; simpl; [done|]. by rewrite IH. Qed.

Lemma str_app_assoc s t u : (s ++ t) ++ u = s ++ t ++ u.
Proof.
  induction s as [|a s IH]; [done|].
  change (String a ((s ++ t) ++ u) = String a (s ++ t ++ u)). by rewrite IH.
Qed.

Lemma str_app_nil_r s : s ++ "" = s.
Proof.
  induction s as [|a s IH]; [done|].
  change (String a (s ++ "") = String a s). by rewrite IH.
Qed.

Lemma str_app_inj_r t s1 s2 : s1 ++ t = s2 ++ t → s1 = s2.
Proof.
  revert s2. induction s1 as [|a s1 IH]; intros [|b s2] H; simpl in *.
  - done.
  - apply (f_equal String.length) in H.
    rewrite ?str_length_app in H. simpl in H.
    rewrite ?str_length_app in H. lia.
  - apply (f_equal String.length) in H.
    rewrite ?str_length_app in H. simpl in H.
    rewrite ?str_length_app in H. lia.
  - change (String a (s1 ++ t) = String b (s2 ++ t)) in H.
    injection H as -> H. f_equal. by apply IH.
Qed.

Lemma _pjaxify_template_name_cases name :
  (str_contains dot name = false ∧
   _pjaxify_template_name name = name ++ "-pjax") ∨
  (∃ stem ext, name = stem ++ String dot ext ∧
     str_contains dot ext = false ∧
     _pjaxify_template_name name = (stem ++ "-pjax") ++ String dot ext).
Proof.
  destruct (str_contains dot name) eqn:Hdot.
  - right. destruct (str_contains_split _ _ Hdot) as (stem & ext & -> & Hext).
    exists stem, ext. split_and!; [done..|].
    change (String dot ext) with ("." ++ ext).
    rewrite (_pjaxify_template_name_dot _ _ Hext).
    by rewrite str_app_assoc.
  - left. split; [done|]. by apply _pjaxify_template_name_no_dot.
Qed.

(** X1: [_pjaxify_template_name] is injective, and so is
    [_pjaxify_template_var]: two different template names, or two different
    template variables, never get the same PJAX name. *)
Theorem pjaxify_injective :
  (∀ n1 n2, _pjaxify_template_name n1 = _pjaxify_template_name n2 → n1 = n2) ∧
  (∀ v1 v2, _pjaxify_template_var v1 = _pjaxify_template_var v2 → v1 = v2).
Proof.
  assert (∀ n1 n2,
    _pjaxify_template_name n1 = _pjaxify_template_name n2 → n1 = n2) as Hname.
  { intros n1 n2 Heq.
    destruct (_pjaxify_template_name_cases n1)
      as [[Hd1 H1]|(stem1 & ext1 & -> & Hext1 & H1)],
       (_pjaxify_template_name_cases n2)
      as [[Hd2 H2]|(stem2 & ext2 & -> & Hext2 & H2)];
      rewrite H1, H2 in Heq.
    - by apply str_app_inj_r in Heq.
    - apply (f_equal (str_contains dot)) in Heq.
      rewrite str_contains_app, Hd1, str_contains_sep in Heq. done.
    - apply (f_equal (str_contains dot)) in Heq.
      rewrite str_contains_sep, str_contains_app, Hd2 in Heq. done.
    - apply (f_equal (rsplit1 dot)) in Heq.
      rewrite !rsplit1_last_sep in Heq by done.
      injection Heq as Hstem ->. by apply str_app_inj_r in Hstem as ->. }
  assert (∀ l1 l2 : list string,
    List.map _pjaxify_template_name l1 = List.map _pjaxify_template_name l2 →
    l1 = l2) as Hlist.
  { induction l1 as [|a l1 IH]; intros [|b l2] H; simplify_eq/=; [done|].
    f_equal; auto. }
  split; [done|].
  intros [n1|l1|l1|t1|] [n2|l2|l2|t2|] H; simplify_eq/=; f_equal; auto.
Qed.

Lemma pjaxify_injective_witness :
  _pjaxify_template_var (TTuple ["a.html"; "b"])
    = _pjaxify_template_var (TTuple ["a.html"; "b"]) ∧
  TTuple ["a.html"; "b"] = TTuple ["a.html"; "b"].
Proof.
  split; [reflexivity|].
  destruct pjaxify_injective as [_ H]. exact (H _ _ eq_refl).
Defined.

(** X2: the PJAX name is always five characters longer than the name, so
    it is never the name itself and never empty, also for the empty
    name. *)
Theorem pjaxify_template_name_length name :
  String.length (_pjaxify_template_name name) = (String.length name + 5)%nat ∧
  _pjaxify_template_name name ≠ name ∧
  _pjaxify_template_name name ≠ "".
Proof.
  assert (String.length (_pjaxify_template_name name)
          = (String.length name + 5)%nat) as Hlen.
  { destruct (_pjaxify_template_name_cases name)
      as [[_ ->]|(stem & ext & -> & _ & ->)];
      rewrite !str_length_app; simpl; lia. }
  split_and!; [done| |].
  - intros Heq. rewrite Heq in Hlen. lia.
  - intros Heq. rewrite Heq in Hlen. simpl in Hlen. lia.
Qed.

(** X3: rewriting keeps the extension.  The PJAX name contains a dot
    exactly when the name does, and splitting it at its last dot gives the
    stem of the name followed by ["-pjax"] and the unchanged extension. *)
Theorem pjaxify_template_name_extension name :
  str_contains dot (_pjaxify_template_name name) = str_contains dot name ∧
  (∀ stem ext, rsplit1 dot name = [stem; ext] →
     rsplit1 dot (_pjaxify_template_name name) = [stem ++ "-pjax"; ext]).
Proof.
  destruct (_pjaxify_template_name_cases name)
    as [[Hd ->]|(stem & ext & -> & Hext & ->)].
  - split.
    + by rewrite str_contains_app, Hd.
    + intros stem ext. by rewrite (rsplit1_no_sep _ _ Hd).
  - split.
    + by rewrite !str_contains_sep.
    + intros stem' ext'. rewrite !rsplit1_last_sep by done. by intros [= -> ->].
Qed.

Lemma pjaxify_template_name_extension_witness :
  rsplit1 dot "blog/post.list.html" = ["blog/post.list"; "html"] ∧
  rsplit1 dot (_pjaxify_template_name "blog/post.list.html")
    = ["blog/post.list-pjax"; "html"].
Proof.
  split; [reflexivity|].
  destruct (pjaxify_template_name_extension "blog/post.list.html") as [_ H].
  exact (H _ _ eq_refl).
Defined.

(** ** Stacked decorators *)

Ltac decorators_cases view request args :=
  unfold pjax_block_view, pjax, pjaxtend, setitem_context_data;
  destruct (view request args) as [[c tn [d|] sc h bn tv0 tb0]|e];
  simpl; try done;
  destruct (is_pjax request) eqn:Hpjax; simpl; rewrite ?Hpjax; simpl;
  repeat (match goal with
          | |- context [if ?b then _ else _] => destruct b eqn:?
          end; simpl; rewrite ?Hpjax; simpl);
  try done.

Section StackedDecorators.
Context {Args : Type}.
Implicit Types (view : @View Args) (request : HttpRequest) (args : Args).


(** X5: stacking [pjax_block] on [pjax_block]: the outer decorator decides
    the block and the title, on every request. *)
Theorem pjax_block_view_stacked block tv tb block' tv' tb' view request args :
  pjax_block_view block tv tb (pjax_block_view block' tv' tb' view)
    request args =
  pjax_block_view block tv tb view request args.
Proof. by decorators_cases view request args. Qed.

(** X6: decorators of different kinds commute: [pjax_block] with [pjax],
    [pjax_block] with [pjaxtend], and [pjax] with [pjaxtend] give the same
    result in either order, errors included. *)
Theorem decorators_commute block tv tb pjax_template parent pjax_parent
    context_var view request args :
  pjax_block_view block tv tb (pjax pjax_template view) request args =
    pjax pjax_template (pjax_block_view block tv tb view) request args ∧
  pjax_block_view block tv tb
    (pjaxtend parent pjax_parent context_var view) request args =
    pjaxtend parent pjax_parent context_var
      (pjax_block_view block tv tb view) request args ∧
  pjax pjax_template
    (pjaxtend parent pjax_parent context_var view) request args =
    pjaxtend parent pjax_parent context_var
      (pjax pjax_template view) request args.
Proof. split_and!; by decorators_cases view request args. Qed.

(** X7: [pjaxtend] applied twice with the same arguments acts as applied
    once, and two [pjaxtend] with different context variables commute. *)
Theorem pjaxtend_stacked parent pjax_parent context_var
    parent' pjax_parent' context_var' view request args :
  pjaxtend parent pjax_parent context_var
    (pjaxtend parent pjax_parent context_var view) request args =
    pjaxtend parent pjax_parent context_var view request args ∧
  (context_var ≠ context_var' →
   pjaxtend parent pjax_parent context_var
     (pjaxtend parent' pjax_parent' context_var' view) request args =
   pjaxtend parent' pjax_parent' context_var'
     (pjaxtend parent pjax_parent context_var view) request args).
Proof.
  split.
  - decorators_cases view request args; by rewrite insert_insert_eq.
  - intros Hne.
    decorators_cases view request args; by rewrite (insert_insert_ne _ context_var context_var').
Qed.

(** X8: an exception of the wrapped view passes through every decorator
    unchanged, on every request; the mixin passes on the exception of the
    superclass even when [pjax_template_name] is set. *)
Theorem exceptions_pass_through view request args e :
  view request args = Raise e →
  (∀ block tv tb,
     pjax_block_view block tv tb view request args = Raise e) ∧
  (∀ pjax_template, pjax pjax_template view request args = Raise e) ∧
  (∀ parent pjax_parent context_var,
     pjaxtend parent pjax_parent context_var view request args = Raise e) ∧
  (∀ V (M : TemplateResponseMixin V) (self : PJAXResponseView V),
     get_template_names (super self) = Raise e →
     get_template_names self = Raise e).
Proof.
  intros Hview. split_and!; intros.
  - unfold pjax_block_view. by rewrite Hview.
  - unfold pjax. by rewrite Hview.
  - unfold pjaxtend. by rewrite Hview.
  - simpl. by rewrite H.
Qed.

(** X9: [pjaxtend] needs a context dictionary.  When the response of the
    view has [context_data] [None], the decorated view raises [TypeError]
    on a PJAX request, and on any other request when [parent] is truthy;
    only a non-PJAX request with a falsy [parent] gets the response. *)
Theorem pjaxtend_without_context parent pjax_parent context_var view
    request args resp :
  view request args = Ok resp →
  context_data resp = None →
  pjaxtend parent pjax_parent context_var view request args =
    if is_pjax request || truthy parent
    then Raise (TypeError "'NoneType' object does not support item assignment")
    else Ok resp.
Proof.
  intros Hview Hctx. unfold pjaxtend, setitem_context_data.
  rewrite Hview. simpl. rewrite Hctx.
  by destruct (is_pjax request), (truthy parent).
Qed.

End StackedDecorators.


Lemma pjaxtend_stacked_witness :
  "parent" ≠ "layout" ∧
  pjaxtend (PStr "base.html") (PStr "pjax.html") "parent"
    (pjaxtend PNone (PStr "bare.html") "layout" sample_view)
    pjax_request () =
  pjaxtend PNone (PStr "bare.html") "layout"
    (pjaxtend (PStr "base.html") (PStr "pjax.html") "parent" sample_view)
    pjax_request ().
Proof.
  assert ("parent" ≠ "layout") as Hne by discriminate.
  split; [exact Hne|].
  destruct (pjaxtend_stacked (PStr "base.html") (PStr "pjax.html") "parent"
              PNone (PStr "bare.html") "layout" sample_view pjax_request ())
    as [_ H].
  exact (H Hne).
Defined.

Lemma exceptions_pass_through_witness :
  failing_view pjax_request () = Raise (KeyError "pk") ∧
  pjaxtend_default failing_view pjax_request () = Raise (KeyError "pk").
Proof.
  split; [reflexivity|].
  destruct (exceptions_pass_through failing_view pjax_request ()
              (KeyError "pk") eq_refl) as (_ & _ & H & _).
  apply H.
Defined.

Lemma pjaxtend_without_context_witness :
  sample_view_no_context plain_request () = Ok sample_response_no_context ∧
  context_data sample_response_no_context = None ∧
  pjaxtend_default sample_view_no_context plain_request () =
    Raise (TypeError "'NoneType' object does not support item assignment").
Proof.
  split; [reflexivity|]. split; [reflexivity|].
  exact (pjaxtend_without_context (PStr "base.html") (PStr "pjax.html")
           "parent" sample_view_no_context plain_request ()
           sample_response_no_context eq_refl eq_refl).
Defined.

(** ** Patched templates and the render context *)

Lemma store_captured_absent block_name result rc :
  rc !! "pjax_captured_blocks" = None →
  store_captured block_name result rc = rc.
Proof. intros H. unfold store_captured. by rewrite H. Qed.

Lemma NodeList_render_without_entry nl :
  ∀ vars rc, rc !! "pjax_captured_blocks" = None →
    (NodeList_render nl vars rc).2 = rc.
Proof.
  revert nl.
  apply (NodeList_tree_ind
           (λ nl, ∀ vars rc, rc !! "pjax_captured_blocks" = None →
                    (NodeList_render nl vars rc).2 = rc)
           (λ n, ∀ vars rc, rc !! "pjax_captured_blocks" = None →
                   (Node_render n vars rc).2 = rc)).
  - intros c ns Hns vars rc Hrc. rewrite NodeList_render_unfold.
    assert ((render_each (λ n, Node_render n vars) ns rc).2 = rc) as Hsame.
    { clear c. revert rc Hrc.
      induction Hns as [|n ns Hn _ IH]; intros rc Hrc; [done|].
      rewrite render_each_cons. specialize (Hn vars rc Hrc).
      destruct (Node_render n vars rc) as [bit rc1]. simpl in Hn. subst rc1.
      specialize (IH rc Hrc).
      by destruct (render_each _ ns rc) as [bits rc2]. }
    destruct (render_each _ ns rc) as [result rc']. simpl in Hsame. subst rc'.
    destruct c; simpl; [done|]. by apply store_captured_absent.
  - done.
  - intros name nl IH vars rc Hrc. by apply IH.
  - intros var value nl IH vars rc Hrc. by apply IH.
  - intros var1 var2 negate t f IHt IHf vars rc Hrc. simpl.
    destruct (ifequal_holds _ _ _ _); [by apply IHt|by apply IHf].
  - intros filter_expr nl IH vars rc Hrc. simpl.
    specialize (IH vars rc Hrc). by destruct (NodeList_render nl vars rc).
  - intros cached nl IH vars rc Hrc. simpl.
    destruct cached; [done|by apply IH].
Qed.

(** X10: a template patched by a PJAX request still serves full pages.
    Rendered with a render context that has no ["pjax_captured_blocks"]
    entry, the patched tree gives the text of the unpatched tree and leaves
    the render context as it was; the inherited [rendered_content] of a
    plain response is the same for the patched and the unpatched
    template. *)
Theorem patched_template_renders_plain T nl vars :
  (∀ rc, rc !! "pjax_captured_blocks" = None →
     NodeList_render (patch_tree T nl) vars rc = (render_plain nl vars, rc)) ∧
  (∀ get_template resolve_context self,
     TemplateResponse_rendered_content_log get_template resolve_context
       (set_template_name (TTemplate {| nodelist := patch_tree T nl |}) self) =
     TemplateResponse_rendered_content_log get_template resolve_context
       (set_template_name (TTemplate {| nodelist := nl |}) self)).
Proof.
  assert (∀ rc, (NodeList_render (patch_tree T nl) vars rc).1
                = render_plain nl vars) as Hout.
  { intros rc. rewrite render_plain_eq.
    by rewrite <- render_plain_erase, erase_patch_tree, render_plain_erase. }
  split.
  - intros rc Hrc.
    pose proof (NodeList_render_without_entry (patch_tree T nl) vars rc Hrc).
    specialize (Hout rc).
    destruct (NodeList_render (patch_tree T nl) vars rc). simpl in *.
    by subst.
  - intros get_template resolve_context self.
    unfold TemplateResponse_rendered_content_log, Template_render. simpl.
    set (vars' := resolve_context (context_data self)).
    assert ((NodeList_render (patch_tree T nl) vars' ∅).1
            = (NodeList_render nl vars' ∅).1) as Heq.
    { rewrite !render_plain_eq.
      by rewrite <- render_plain_erase, erase_patch_tree, render_plain_erase. }
    destruct (NodeList_render (patch_tree T nl) vars' ∅),
             (NodeList_render nl vars' ∅). simpl in Heq. by subst.
Qed.

Lemma patched_template_renders_plain_witness :
  (∅ : gmap string (gmap string string)) !! "pjax_captured_blocks" = None ∧
  NodeList_render
    (patch_tree ["content"; "title"] (nodelist sample_template)) ∅ ∅
  = ("<html><head><title>Post</title></head><body><p>hello</p>hi</body></html>",
     ∅).
Proof.
  split; [reflexivity|].
  destruct (patched_template_renders_plain ["content"; "title"]
              (nodelist sample_template) ∅) as [H _].
  rewrite (H ∅ (lookup_empty _)). reflexivity.
Defined.

Lemma only_captures_added_refl rc : only_captures_added rc rc.
Proof.
  split; [done|]. by destruct (rc !! "pjax_captured_blocks").
Qed.

Lemma only_captures_added_trans rc1 rc2 rc3 :
  only_captures_added rc1 rc2 → only_captures_added rc2 rc3 →
  only_captures_added rc1 rc3.
Proof.
  intros [Hk12 Hc12] [Hk23 Hc23]. split.
  - intros key Hkey. by rewrite Hk23, Hk12.
  - destruct (rc1 !! "pjax_captured_blocks"),
             (rc2 !! "pjax_captured_blocks"),
             (rc3 !! "pjax_captured_blocks"); try done.
    intros b Hb. by apply Hc23, Hc12.
Qed.

Lemma only_captures_added_store block_name result rc :
  only_captures_added rc (store_captured block_name result rc).
Proof.
  unfold store_captured.
  destruct (rc !! "pjax_captured_blocks") as [d|] eqn:Hd;
    [|apply only_captures_added_refl].
  split.
  - intros key Hkey. by rewrite lookup_insert_ne.
  - rewrite Hd, lookup_insert_eq. intros b Hb.
    destruct (decide (block_name = b)) as [->|Hne].
    + rewrite lookup_insert_eq. by eexists.
    + by rewrite lookup_insert_ne.
Qed.

Lemma NodeList_render_adds_captures nl :
  ∀ vars rc, only_captures_added rc (NodeList_render nl vars rc).2.
Proof.
  revert nl.
  apply (NodeList_tree_ind
           (λ nl, ∀ vars rc,
              only_captures_added rc (NodeList_render nl vars rc).2)
           (λ n, ∀ vars rc,
              only_captures_added rc (Node_render n vars rc).2)).
  - intros c ns Hns vars rc. rewrite NodeList_render_unfold.
    assert (only_captures_added rc
              (render_each (λ n, Node_render n vars) ns rc).2) as Hlist.
    { clear c. revert rc.
      induction Hns as [|n ns Hn _ IH]; intros rc;
        [apply only_captures_added_refl|].
      rewrite render_each_cons. specialize (Hn vars rc).
      destruct (Node_render n vars rc) as [bit rc1]. simpl in Hn.
      specialize (IH rc1).
      destruct (render_each _ ns rc1) as [bits rc2]. simpl in *.
      by eapply only_captures_added_trans. }
    destruct (render_each _ ns rc) as [result rc']. simpl in Hlist.
    destruct c; simpl; [done|].
    eapply only_captures_added_trans; [done|].
    apply only_captures_added_store.
  - intros s vars rc. apply only_captures_added_refl.
  - intros name nl IH vars rc. apply IH.
  - intros var value nl IH vars rc. apply IH.
  - intros var1 var2 negate t f IHt IHf vars rc. simpl.
    destruct (ifequal_holds _ _ _ _); [apply IHt|apply IHf].
  - intros filter_expr nl IH vars rc. simpl.
    specialize (IH vars rc). by destruct (NodeList_render nl vars rc).
  - intros cached nl IH vars rc. simpl.
    destruct cached; [apply only_captures_added_refl|apply IH].
Qed.

(** X11: rendering touches nothing in the render context but the
    captured blocks.  Whatever the tree and its patches, every other entry
    is left as it was, the entry ["pjax_captured_blocks"] is never created
    nor removed, and a block captured before stays captured. *)
Theorem render_only_adds_captures nl :
  ∀ vars rc, only_captures_added rc (NodeList_render nl vars rc).2.
Proof. apply NodeList_render_adds_captures. Qed.

(** ** Repeated and combined walks *)

Lemma patch_tree_comm T1 T2 nl :
  patch_tree T1 (patch_tree T2 nl) = patch_tree T2 (patch_tree T1 nl).
Proof.
  revert nl.
  apply (NodeList_tree_ind
    (λ nl, patch_tree T1 (patch_tree T2 nl) = patch_tree T2 (patch_tree T1 nl))
    (λ n, patch_node T1 (patch_node T2 n) = patch_node T2 (patch_node T1 n))).
  - intros c ns Hns. simpl. f_equal.
    induction Hns as [|n ns Hn _ IH]; simpl; [done|]. by rewrite Hn, IH.
  - done.
  - intros name [c ns] IH. simpl in *.
    destruct (bool_decide (name ∈ T1)) eqn:H1,
             (bool_decide (name ∈ T2)) eqn:H2; simpl; rewrite ?H1, ?H2;
      try done.
    by rewrite IH.
  - intros var value nl IH. simpl. by rewrite IH.
  - done.
  - intros filter_expr nl IH. simpl. by rewrite IH.
  - intros cached nl IH. simpl. by rewrite IH.
Qed.

Lemma patch_tree_ext T T' nl :
  (∀ name, name ∈ T ↔ name ∈ T') → patch_tree T nl = patch_tree T' nl.
Proof.
  intros Hext. revert nl.
  apply (NodeList_tree_ind
    (λ nl, patch_tree T nl = patch_tree T' nl)
    (λ n, patch_node T n = patch_node T' n)).
  - intros c ns Hns. simpl. f_equal.
    induction Hns as [|n ns Hn _ IH]; simpl; [done|]. by rewrite Hn, IH.
  - done.
  - intros name nl IH. simpl.
    rewrite (bool_decide_ext _ _ (Hext name)). by rewrite IH.
  - intros var value nl IH. simpl. by rewrite IH.
  - done.
  - intros filter_expr nl IH. simpl. by rewrite IH.
  - intros cached nl IH. simpl. by rewrite IH.
Qed.

(** X13: how walks compose.  Walking a tree twice with the same targets
    changes nothing more than walking it once; walks with different
    targets give the same tree in either order; and the result depends on
    the targets only as a set, not on their order or repetition. *)
Theorem patch_tree_composition T1 T2 nl :
  patch_tree T1 (patch_tree T1 nl) = patch_tree T1 nl ∧
  patch_tree T1 (patch_tree T2 nl) = patch_tree T2 (patch_tree T1 nl) ∧
  ((∀ name, name ∈ T1 ↔ name ∈ T2) → patch_tree T1 nl = patch_tree T2 nl).
Proof.
  split_and!.
  - apply patch_tree_idemp.
  - apply patch_tree_comm.
  - apply patch_tree_ext.
Qed.

Lemma patch_tree_composition_witness :
  (∀ name, name ∈ ["content"; "title"] ↔ name ∈ ["title"; "content"; "title"]) ∧
  patch_tree ["content"; "title"] (nodelist sample_template) =
  patch_tree ["title"; "content"; "title"] (nodelist sample_template).
Proof.
  assert (∀ name : string,
    name ∈ ["content"; "title"] ↔ name ∈ ["title"; "content"; "title"])
    as Hext.
  { intros name. rewrite !elem_of_cons, !elem_of_nil. tauto. }
  split; [exact Hext|].
  destruct (patch_tree_composition ["content"; "title"]
              ["title"; "content"; "title"] (nodelist sample_template))
    as (_ & _ & H).
  exact (H Hext).
Defined.

Lemma well_patched_unpatched nl :
  erase_classes nl = nl → ∀ owner, well_patched owner nl = true.
Proof.
  revert nl.
  apply (NodeList_tree_ind
    (λ nl, erase_classes nl = nl → ∀ owner, well_patched owner nl = true)
    (λ n, erase_node n = n → well_patched_node n = true)).
  - intros c ns Hns [-> Hfresh]%erase_fixed_inv owner. simpl.
    induction Hns as [|n ns Hn _ IH]; simpl; [done|].
    apply Forall_cons in Hfresh as [Hfn Hfresh].
    by rewrite (Hn Hfn), (IH Hfresh).
  - done.
  - intros name nl IH [= Hnl]. simpl. by apply IH.
  - intros var value nl IH [= Hnl]. simpl. by apply IH.
  - intros var1 var2 negate t f IHt IHf [= Ht Hf]. simpl.
    by rewrite (IHt Ht), (IHf Hf).
  - intros filter_expr nl IH [= Hnl]. simpl. by apply IH.
  - intros cached nl IH [= Hnl]. simpl. by apply IH.
Qed.

Lemma well_patched_patch_tree T nl :
  ∀ owner, well_patched owner nl = true →
           well_patched owner (patch_tree T nl) = true.
Proof.
  revert nl.
  apply (NodeList_tree_ind
    (λ nl, ∀ owner, well_patched owner nl = true →
                    well_patched owner (patch_tree T nl) = true)
    (λ n, well_patched_node n = true →
          well_patched_node (patch_node T n) = true)).
  - intros c ns Hns owner. simpl.
    intros [Hc Hall]%andb_true_iff. rewrite Hc. simpl.
    induction Hns as [|n ns Hn _ IH]; simpl in *; [done|].
    apply andb_true_iff in Hall as [Hwn Hall].
    by rewrite (Hn Hwn), (IH Hall).
  - done.
  - intros name [c ns] IH. simpl. case_bool_decide as Hin; simpl.
    + intros [_ Hall]%andb_true_iff. by rewrite bool_decide_true.
    + apply IH.
  - intros var value nl IH. simpl. apply IH.
  - done.
  - intros filter_expr nl IH. simpl. apply IH.
  - intros cached nl IH. simpl. apply IH.
Qed.

(** X14: an invariant of the parsed template under any history of PJAX
    requests.  In a template as parsed, and after any sequence of walks
    with any targets, every node list of class [PJAXBlockNodeList] is the
    node list of a block and carries the name of that block as
    [block_name]. *)
Theorem well_patched_invariant nl :
  (erase_classes nl = nl → well_patched None nl = true) ∧
  (∀ T, well_patched None nl = true →
        well_patched None (patch_tree T nl) = true) ∧
  (∀ Ts : list (list string), erase_classes nl = nl →
        well_patched None (foldr patch_tree nl Ts) = true).
Proof.
  split_and!.
  - intros H. by apply well_patched_unpatched.
  - intros T. apply well_patched_patch_tree.
  - intros Ts H. induction Ts as [|T Ts IH]; simpl.
    + by apply well_patched_unpatched.
    + by apply well_patched_patch_tree.
Qed.

Lemma well_patched_invariant_witness :
  erase_classes (nodelist sample_template) = nodelist sample_template ∧
  well_patched None
    (patch_tree ["greeting"]
       (patch_tree ["content"; "title"] (nodelist sample_template))) = true.
Proof.
  split; [reflexivity|].
  destruct (well_patched_invariant (nodelist sample_template)) as (_ & _ & H).
  exact (H [["greeting"]; ["content"; "title"]] eq_refl).
Defined.

Lemma patch_tree_class_at_path T p :
  ∀ nl sub, subtree nl p = Some sub →
    ∃ sub', subtree (patch_tree T nl) p = Some sub' ∧
      (nl_class sub' = nl_class sub ∨
       ∃ name, nl_class sub' = PJAXBlockNodeList name).
Proof.
  induction p as [|[i j] p IH]; intros nl sub Hsub.
  - injection Hsub as <-. exists (patch_tree T nl). split; [done|].
    left. apply nl_class_patch_tree.
  - simpl in Hsub. simpl. rewrite nl_nodes_patch_tree, list_lookup_fmap.
    destruct (nl_nodes nl !! i) as [n|] eqn:Hn; simpl in *; [|done].
    destruct n as [s|name body|var value body|var1 var2 negate t f
                  |filter_expr body|cached body];
      simpl in *.
    + done.
    + destruct j as [|j]; simpl in *; [|done].
      case_bool_decide as Hin; simpl; [|by apply IH].
      destruct p as [|step p].
      * injection Hsub as <-. eexists. split; [done|]. right. by eexists.
      * rewrite subtree_set_class by done. exists sub. by split; [|left].
    + destruct j as [|j]; simpl in *; [|done]. by apply IH.
    + exists sub. by split; [|left].
    + destruct j as [|j]; simpl in *; [|done]. by apply IH.
    + destruct j as [|j]; simpl in *; [|done]. by apply IH.
Qed.

(** X15: the walk never takes a patch back.  A node list that is a
    [PJAXBlockNodeList] before a walk is one after it, whatever the
    targets: patches made for one decorator stay when another decorator
    walks the same template. *)
Theorem patch_tree_keeps_patches T nl p sub name :
  subtree nl p = Some sub →
  nl_class sub = PJAXBlockNodeList name →
  ∃ sub' name',
    subtree (patch_tree T nl) p = Some sub' ∧
    nl_class sub' = PJAXBlockNodeList name'.
Proof.
  intros Hsub Hclass.
  destruct (patch_tree_class_at_path T p nl sub Hsub)
    as (sub' & Hsub' & [Hsame|[name' Hnew]]).
  - exists sub', name. split; [done|]. by rewrite Hsame.
  - by exists sub', name'.
Qed.

Lemma patch_tree_keeps_patches_witness :
  ∃ sub sub' name',
    subtree (patch_tree ["content"] (nodelist sample_template))
      [(3, 0); (0, 0)] = Some sub ∧
    nl_class sub = PJAXBlockNodeList "content" ∧
    subtree (patch_tree ["title"]
               (patch_tree ["content"] (nodelist sample_template)))
      [(3, 0); (0, 0)] = Some sub' ∧
    nl_class sub' = PJAXBlockNodeList name'.
Proof.
  eexists.
  destruct (patch_tree_keeps_patches ["title"]
              (patch_tree ["content"] (nodelist sample_template))
              [(3, 0); (0, 0)] _ "content" eq_refl eq_refl)
    as (sub' & name' & Hsub' & Hclass').
  exists sub', name'. split; [reflexivity|]. split; [reflexivity|].
  split; [exact Hsub' | exact Hclass'].
Defined.

(** ** What is captured *)

Lemma last_some_Some {A} (os : list (option A)) a :
  last_some os = Some a → Some a ∈ os.
Proof.
  induction os as [|o os IH]; simpl; [done|].
  destruct (last_some os) as [a'|].
  - intros [= ->]. right. by apply IH.
  - intros ->. left.
Qed.

Lemma block_names_patch_tree T nl :
  block_names (patch_tree T nl) = block_names nl.
Proof.
  revert nl.
  apply (NodeList_tree_ind
    (λ nl, block_names (patch_tree T nl) = block_names nl)
    (λ n, block_names_node (patch_node T n) = block_names_node n)).
  - intros c ns Hns. simpl.
    induction Hns as [|n ns Hn _ IH]; simpl; [done|]. by rewrite Hn, IH.
  - done.
  - intros name [c ns] IH. simpl in *. case_bool_decide; simpl; [done|].
    by rewrite IH.
  - intros var value nl IH. simpl. by rewrite IH.
  - done.
  - intros filter_expr nl IH. simpl. by rewrite IH.
  - intros cached nl IH. simpl. by rewrite IH.
Qed.

(** A block that the walk converts is a target and a block of the tree. *)
Lemma block_output_Some_inv T b nl :
  ∀ vars content, block_output T b nl vars = Some content →
    b ∈ T ∧ b ∈ block_names nl.
Proof.
  revert nl.
  apply (NodeList_tree_ind
    (λ nl, ∀ vars content, block_output T b nl vars = Some content →
             b ∈ T ∧ b ∈ block_names nl)
    (λ n, ∀ vars content, block_output_node T b n vars = Some content →
            b ∈ T ∧ b ∈ block_names_node n)).
  - intros c ns Hns vars content. simpl. clear c.
    induction Hns as [|n ns Hn _ IH]; simpl; [done|].
    destruct (last_some _) as [a|].
    + intros [= ->]. destruct (IH eq_refl) as [HT Hin].
      split; [done|]. apply elem_of_app. by right.
    + intros Hnode. destruct (Hn _ _ Hnode) as [HT Hin].
      split; [done|]. apply elem_of_app. by left.
  - done.
  - intros name nl IH vars content. simpl.
    case_bool_decide as Hin.
    + case_bool_decide as Hb; [|done]. subst name. intros _.
      split; [done|]. left.
    + intros Hout. destruct (IH _ _ Hout) as [HT Hnames].
      split; [done|]. by right.
  - intros var value nl IH vars content. apply IH.
  - done.
  - intros filter_expr nl IH vars content. apply IH.
  - intros cached nl IH vars content. simpl. destruct cached; [done|apply IH].
Qed.

(** Rendering a well-patched tree captures under the names of its blocks
    only. *)
Lemma NodeList_render_captured_names nl :
  ∀ owner vars rc d,
    well_patched owner nl = true →
    rc !! "pjax_captured_blocks" = Some d →
    ∃ d', (NodeList_render nl vars rc).2 !! "pjax_captured_blocks" = Some d' ∧
      ∀ b, is_Some (d' !! b) →
           is_Some (d !! b) ∨ b ∈ block_names nl ∨ owner = Some b.
Proof.
  revert nl.
  apply (NodeList_tree_ind
    (λ nl, ∀ owner vars rc d,
       well_patched owner nl = true →
       rc !! "pjax_captured_blocks" = Some d →
       ∃ d', (NodeList_render nl vars rc).2 !! "pjax_captured_blocks"
               = Some d' ∧
         ∀ b, is_Some (d' !! b) →
              is_Some (d !! b) ∨ b ∈ block_names nl ∨ owner = Some b)
    (λ n, ∀ vars rc d,
       well_patched_node n = true →
       rc !! "pjax_captured_blocks" = Some d →
       ∃ d', (Node_render n vars rc).2 !! "pjax_captured_blocks" = Some d' ∧
         ∀ b, is_Some (d' !! b) →
              is_Some (d !! b) ∨ b ∈ block_names_node n)).
  - intros c ns Hns owner vars rc d. simpl well_patched.
    intros [Hc Hall]%andb_true_iff Hd. rewrite NodeList_render_unfold.
    assert (∃ d',
      (render_each (λ n, Node_render n vars) ns rc).2
        !! "pjax_captured_blocks" = Some d' ∧
      ∀ b, is_Some (d' !! b) →
           is_Some (d !! b) ∨ b ∈ List.flat_map block_names_node ns)
      as (d' & Hd' & Hkeys).
    { clear Hc. revert rc d Hd.
      induction Hns as [|n ns Hn _ IH]; intros rc d Hd.
      - exists d. split; [done|]. by left.
      - simpl in Hall. apply andb_true_iff in Hall as [Hwn Hall].
        rewrite render_each_cons.
        destruct (Hn vars rc d Hwn Hd) as (d1 & Hd1 & Hk1).
        destruct (Node_render n vars rc) as [bit rc1]. simpl in Hd1.
        destruct (IH Hall rc1 d1 Hd1) as (d2 & Hd2 & Hk2).
        destruct (render_each _ ns rc1) as [bits rc2]. simpl in *.
        exists d2. split; [done|]. intros b Hb.
        rewrite elem_of_app.
        destruct (Hk2 b Hb) as [Hb1|?]; [|by auto].
        destruct (Hk1 b Hb1); by auto. }
    destruct (render_each _ ns rc) as [result rc']. simpl in Hd'.
    destruct c as [|n]; simpl.
    + exists d'. split; [done|]. intros b Hb.
      destruct (Hkeys b Hb); by auto.
    + simpl in Hc. apply bool_decide_eq_true in Hc.
      rewrite (store_captured_present _ _ _ _ Hd'), lookup_insert_eq.
      eexists. split; [done|]. intros b Hb.
      destruct (decide (n = b)) as [->|Hne]; [by auto|].
      rewrite lookup_insert_ne in Hb by done.
      destruct (Hkeys b Hb); by auto.
  - intros s vars rc d _ Hd. exists d. split; [done|]. by left.
  - intros name nl IH vars rc d Hw Hd. simpl in Hw.
    destruct (IH (Some name) (<["block" := PBool true]> vars) rc d Hw Hd)
      as (d' & Hd' & Hkeys).
    exists d'. split; [done|]. intros b Hb. simpl.
    destruct (Hkeys b Hb) as [?|[?|[= ->]]]; [by left|right..].
    + by right.
    + left.
  - intros var value nl IH vars rc d Hw Hd. simpl in Hw.
    destruct (IH None (<[var := value]> vars) rc d Hw Hd)
      as (d' & Hd' & Hkeys).
    exists d'. split; [done|]. intros b Hb. simpl.
    destruct (Hkeys b Hb) as [?|[?|[=]]]; by auto.
  - intros var1 var2 negate t f IHt IHf vars rc d Hw Hd. simpl in Hw.
    apply andb_true_iff in Hw as [Hwt Hwf]. simpl.
    destruct (ifequal_holds _ _ _ _).
    + destruct (IHt None vars rc d Hwt Hd) as (d' & Hd' & Hkeys).
      exists d'. split; [done|]. intros b Hb. rewrite elem_of_app.
      destruct (Hkeys b Hb) as [?|[?|[=]]]; by auto.
    + destruct (IHf None vars rc d Hwf Hd) as (d' & Hd' & Hkeys).
      exists d'. split; [done|]. intros b Hb. rewrite elem_of_app.
      destruct (Hkeys b Hb) as [?|[?|[=]]]; by auto.
  - intros filter_expr nl IH vars rc d Hw Hd. simpl in Hw.
    destruct (IH None vars rc d Hw Hd) as (d' & Hd' & Hkeys). simpl.
    destruct (NodeList_render nl vars rc) as [output rc'].
    exists d'. split; [done|]. intros b Hb.
    destruct (Hkeys b Hb) as [?|[?|[=]]]; by auto.
  - intros cached nl IH vars rc d Hw Hd. simpl in Hw. simpl.
    destruct cached as [value|].
    + exists d. split; [done|]. by left.
    + destruct (IH None vars rc d Hw Hd) as (d' & Hd' & Hkeys).
      exists d'. split; [done|]. intros b Hb.
      destruct (Hkeys b Hb) as [?|[?|[=]]]; by auto.
Qed.

Lemma no_foreign_patches_well_patched T nl :
  no_foreign_patches T nl → well_patched None (patch_tree T nl) = true.
Proof.
  intros ->. apply well_patched_patch_tree, well_patched_unpatched.
  apply erase_classes_idemp.
Qed.

Section CapturedBlocks.
Variable get_template : string → option Template.
Variable resolve_context : option (gmap string pyval) → gmap string pyval.

Lemma render_and_capture_names self template b content :
  well_patched None (nodelist template) = true →
  (render_and_capture resolve_context self template).2 !! b = Some content →
  b ∈ block_names (nodelist template).
Proof.
  intros Hw. unfold render_and_capture, Template_render. simpl.
  set (T := target_blocks self). set (nl := nodelist template).
  set (vars := resolve_context (context_data self)).
  destruct (NodeList_render_captured_names (patch_tree T nl) None vars
              {["pjax_captured_blocks" := ∅]} ∅
              (well_patched_patch_tree T nl None Hw)
              (lookup_singleton_eq _ _))
    as (d' & Hd' & Hkeys).
  destruct (NodeList_render (patch_tree T nl) vars _) as [page rc].
  simpl in *. rewrite Hd'. simpl. intros Hb.
  destruct (Hkeys b (mk_is_Some _ _ Hb)) as [[? Hempty]|[Hin|[=]]].
  - by rewrite lookup_empty in Hempty.
  - by rewrite block_names_patch_tree in Hin.
Qed.

(** X12: only blocks are captured, and without foreign patches only
    target blocks.  Every key of the captured blocks after rendering is the
    name of a block of the template; when the template carries no patch of
    other targets, it is also one of the targets of the response. *)
Theorem captured_blocks_are_target_blocks self template b content :
  (render_and_capture resolve_context self template).2 !! b = Some content →
  (well_patched None (nodelist template) = true →
     b ∈ block_names (nodelist template)) ∧
  (no_foreign_patches (target_blocks self) (nodelist template) →
     b ∈ target_blocks self ∧ b ∈ block_names (nodelist template)).
Proof.
  intros Hb. split.
  - intros Hw. by eapply render_and_capture_names.
  - intros Hown.
    destruct (render_and_capture_spec resolve_context self template)
      as [_ Hcap].
    rewrite (Hcap Hown) in Hb. by eapply block_output_Some_inv.
Qed.

(** X17: a target block that the template does not have.  When no block
    of the template is called [block_name], [rendered_content] renders the
    whole page and then raises [TemplateSyntaxError] for the block; this
    holds for a template as parsed and after any earlier walks. *)
Theorem missing_block_raises self template b :
  __class__ self = PJAXBlockTemplateResponse →
  resolve_template get_template (template_name self) = Ok (Some template) →
  well_patched None (nodelist template) = true →
  block_name self = Some b →
  b ∉ block_names (nodelist template) →
  rendered_content_log get_template resolve_context self =
    ([TemplateRendered
        (render_plain (nodelist template)
           (resolve_context (context_data self)))],
     Raise (TemplateSyntaxError (block_missing_msg self))).
Proof.
  intros Hclass Hres Hw Hblock Hmissing.
  unfold rendered_content_log. rewrite Hclass.
  rewrite (PJAXBlock_rendered_content_log_resolved _ _ _ _ Hres). f_equal.
  unfold assemble, getitem. rewrite Hblock. simpl.
  destruct (_ !! b) as [content|] eqn:Hb; [|done].
  destruct Hmissing. by eapply render_and_capture_names.
Qed.

(** X18: a falsy block name.  With [block_name] [None] or empty, and a
    template without foreign patches, [rendered_content] always raises
    [TemplateSyntaxError] for the block: an empty name is no target, so
    nothing is captured under it. *)
Theorem falsy_block_name_raises self template :
  __class__ self = PJAXBlockTemplateResponse →
  resolve_template get_template (template_name self) = Ok (Some template) →
  no_foreign_patches (target_blocks self) (nodelist template) →
  truthy_str (block_name self) = false →
  rendered_content get_template resolve_context self =
    Raise (TemplateSyntaxError (block_missing_msg self)).
Proof.
  intros Hclass Hres Hown Hfalsy.
  unfold rendered_content, rendered_content_log. rewrite Hclass.
  rewrite (PJAXBlock_rendered_content_log_resolved _ _ _ _ Hres). simpl.
  unfold assemble, getitem.
  destruct (block_name self) as [b|] eqn:Hblock; simpl; [|done].
  destruct (_ !! b) as [content|] eqn:Hb; [|done].
  destruct (render_and_capture_spec resolve_context self template)
    as [_ Hcap].
  rewrite (Hcap Hown) in Hb.
  apply block_output_Some_inv in Hb as [[Hne _]%elem_of_target_blocks _].
  simpl in Hfalsy. by destruct (String.eqb_spec b "").
Qed.

End CapturedBlocks.

Lemma captured_blocks_are_target_blocks_witness :
  ((render_and_capture sample_resolve_context sample_pjax_response
      sample_template).2 !! "content") = Some "<p>hello</p>hi" ∧
  no_foreign_patches (target_blocks sample_pjax_response)
    (nodelist sample_template) ∧
  "content" ∈ target_blocks sample_pjax_response ∧
  "content" ∈ block_names (nodelist sample_template).
Proof.
  split; [reflexivity|]. split; [reflexivity|].
  destruct (captured_blocks_are_target_blocks sample_resolve_context
              sample_pjax_response sample_template "content" _ eq_refl)
    as [_ H].
  exact (H eq_refl).
Defined.

Lemma missing_block_raises_witness :
  __class__ sample_missing_response = PJAXBlockTemplateResponse ∧
  resolve_template sample_loader (template_name sample_missing_response)
    = Ok (Some sample_template) ∧
  well_patched None (nodelist sample_template) = true ∧
  block_name sample_missing_response = Some "sidebar" ∧
  ("sidebar" ∉ block_names (nodelist sample_template)) ∧
  rendered_content_log sample_loader sample_resolve_context
    sample_missing_response =
    ([TemplateRendered
        "<html><head><title>Post</title></head><body><p>hello</p>hi</body></html>"],
     Raise (TemplateSyntaxError
              "PJAX block 'sidebar' does not exist or was not rendered")).
Proof.
  assert ("sidebar" ∉ block_names (nodelist sample_template)) as Hmissing.
  { simpl. rewrite !elem_of_cons, elem_of_nil.
    intros [[=]|[[=]|[[=]|[]]]]. }
  split; [reflexivity|]. split; [reflexivity|]. split; [reflexivity|].
  split; [reflexivity|]. split; [exact Hmissing|].
  rewrite (missing_block_raises sample_loader sample_resolve_context
             sample_missing_response sample_template "sidebar"
             eq_refl eq_refl eq_refl eq_refl Hmissing).
  reflexivity.
Defined.

Lemma falsy_block_name_raises_witness :
  __class__ sample_empty_name_response = PJAXBlockTemplateResponse ∧
  resolve_template sample_loader (template_name sample_empty_name_response)
    = Ok (Some sample_template) ∧
  no_foreign_patches (target_blocks sample_empty_name_response)
    (nodelist sample_template) ∧
  truthy_str (block_name sample_empty_name_response) = false ∧
  rendered_content sample_loader sample_resolve_context
    sample_empty_name_response =
    Raise (TemplateSyntaxError
             "PJAX block '' does not exist or was not rendered").
Proof.
  split; [reflexivity|]. split; [reflexivity|]. split; [reflexivity|].
  split; [reflexivity|].
  exact (falsy_block_name_raises sample_loader sample_resolve_context
           sample_empty_name_response sample_template
           eq_refl eq_refl eq_refl eq_refl).
Defined.

(** ** What the decorators leave alone *)

Section Frame.
Context {Args : Type}.
Implicit Types (view : @View Args) (request : HttpRequest) (args : Args).

(** X20: the decorators succeed only where the view does, and each leaves
    the rest of the response alone.  The view made by [pjax_block] keeps
    [template_name], [context_data], the status and the headers; the view
    made by [pjax] keeps everything but [template_name]; the view made by
    [pjaxtend] keeps everything but [context_data]. *)
Theorem decorators_frame view request args resp' :
  (∀ block tv tb,
     pjax_block_view block tv tb view request args = Ok resp' →
     ∃ resp, view request args = Ok resp ∧
       template_name resp' = template_name resp ∧
       context_data resp' = context_data resp ∧
       status_code resp' = status_code resp ∧
       headers resp' = headers resp) ∧
  (∀ pjax_template,
     pjax pjax_template view request args = Ok resp' →
     ∃ resp, view request args = Ok resp ∧
       resp' = set_template_name (template_name resp') resp) ∧
  (∀ parent pjax_parent context_var,
     pjaxtend parent pjax_parent context_var view request args = Ok resp' →
     ∃ resp, view request args = Ok resp ∧
       resp' = set_context_data (context_data resp') resp).
Proof.
  split_and!; intros.
  - unfold pjax_block_view in H.
    destruct (view request args) as [resp|e]; simpl in H; [|done].
    exists resp. split; [done|].
    destruct (is_pjax request); injection H as <-; by destruct resp.
  - unfold pjax in H.
    destruct (view request args) as [resp|e]; simpl in H; [|done].
    exists resp. split; [done|].
    destruct (is_pjax request), (truthy_template_var pjax_template);
      injection H as <-; by destruct resp.
  - unfold pjaxtend, setitem_context_data in H.
    destruct (view request args) as [resp|e]; simpl in H; [|done].
    exists resp. split; [done|].
    destruct resp as [c tn cd sc h bn tv0 tb0]; simpl in *.
    destruct (is_pjax request), (truthy parent), cd; by simplify_eq/=.
Qed.

End Frame.

Lemma decorators_frame_witness :
  pjax_block_view (Some "content") None (Some "title")
    sample_view pjax_request () = Ok sample_pjax_response ∧
  ∃ resp, sample_view pjax_request () = Ok resp ∧
    template_name sample_pjax_response = template_name resp ∧
    context_data sample_pjax_response = context_data resp ∧
    status_code sample_pjax_response = status_code resp ∧
    headers sample_pjax_response = headers resp.
Proof.
  split; [reflexivity|].
  destruct (decorators_frame sample_view pjax_request ()
              sample_pjax_response) as [H _].
  exact (H (Some "content") None (Some "title") eq_refl).
Defined.

(** ** What rendering captures, for any history of walks *)

Lemma block_output_unfold T b c ns vars :
  block_output T b (mkNodeList c ns) vars =
  last_some (List.map (λ n, block_output_node T b n vars) ns).
Proof. reflexivity. Qed.





Lemma render_plain_set_class c nl vars :
  render_plain (set_class c nl) vars = render_plain nl vars.
Proof.
  destruct nl as [c' ns]. unfold render_plain, set_class. simpl nl_nodes.
  by rewrite !NodeList_render_fst.
Qed.

Lemma render_plain_patch_tree T nl vars :
  render_plain (patch_tree T nl) vars = render_plain nl vars.
Proof.
  by rewrite <- render_plain_erase, erase_patch_tree, render_plain_erase.
Qed.

Lemma rendered_blocks_patch_tree T nl :
  ∀ vars, rendered_blocks (patch_tree T nl) vars = rendered_blocks nl vars.
Proof.
  revert nl.
  apply (NodeList_tree_ind
    (λ nl, ∀ vars,
       rendered_blocks (patch_tree T nl) vars = rendered_blocks nl vars)
    (λ n, ∀ vars,
       rendered_blocks_node (patch_node T n) vars
       = rendered_blocks_node n vars)).
  - intros c ns Hns vars. simpl.
    induction Hns as [|n ns Hn _ IH]; simpl; [done|]. by rewrite Hn, IH.
  - done.
  - intros name body IH vars. simpl. case_bool_decide as Hin; simpl.
    + rewrite render_plain_set_class. by destruct body.
    + by rewrite IH, render_plain_patch_tree.
  - intros var value nl IH vars. apply IH.
  - done.
  - intros filter_expr nl IH vars. apply IH.
  - intros cached nl IH vars. simpl. destruct cached; [done|apply IH].
Qed.

(** Whatever rendering a well-patched tree stores under a name is what the
    node list of a rendered block of that name rendered to. *)
Lemma NodeList_render_captured_outputs nl :
  ∀ owner vars rc d,
    well_patched owner nl = true →
    rc !! "pjax_captured_blocks" = Some d →
    ∃ d', (NodeList_render nl vars rc).2 !! "pjax_captured_blocks" = Some d' ∧
      ∀ b c, d' !! b = Some c →
        d !! b = Some c ∨ (b, c) ∈ rendered_blocks nl vars ∨
        (owner = Some b ∧ c = render_plain nl vars).
Proof.
  revert nl.
  apply (NodeList_tree_ind
    (λ nl, ∀ owner vars rc d,
       well_patched owner nl = true →
       rc !! "pjax_captured_blocks" = Some d →
       ∃ d', (NodeList_render nl vars rc).2 !! "pjax_captured_blocks"
               = Some d' ∧
         ∀ b c, d' !! b = Some c →
           d !! b = Some c ∨ (b, c) ∈ rendered_blocks nl vars ∨
           (owner = Some b ∧ c = render_plain nl vars))
    (λ n, ∀ vars rc d,
       well_patched_node n = true →
       rc !! "pjax_captured_blocks" = Some d →
       ∃ d', (Node_render n vars rc).2 !! "pjax_captured_blocks" = Some d' ∧
         ∀ b c, d' !! b = Some c →
           d !! b = Some c ∨ (b, c) ∈ rendered_blocks_node n vars)).
  - intros c ns Hns owner vars rc d. simpl well_patched.
    intros [Hc Hall]%andb_true_iff Hd.
    pose proof (render_plain_eq (mkNodeList c ns) vars rc) as Hres.
    rewrite NodeList_render_fst in Hres.
    rewrite NodeList_render_unfold.
    change (rendered_blocks (mkNodeList c ns) vars)
      with (List.flat_map (λ n, rendered_blocks_node n vars) ns).
    assert (∃ d',
      (render_each (λ n, Node_render n vars) ns rc).2
        !! "pjax_captured_blocks" = Some d' ∧
      ∀ b c0, d' !! b = Some c0 →
        d !! b = Some c0 ∨
        (b, c0) ∈ List.flat_map (λ n, rendered_blocks_node n vars) ns)
      as (d' & Hd' & Hkeys).
    { clear Hc Hres. revert rc d Hd.
      induction Hns as [|n ns Hn _ IH]; intros rc d Hd.
      - exists d. split; [done|]. by left.
      - simpl in Hall. apply andb_true_iff in Hall as [Hwn Hall].
        rewrite render_each_cons.
        destruct (Hn vars rc d Hwn Hd) as (d1 & Hd1 & Hk1).
        destruct (Node_render n vars rc) as [bit rc1]. simpl in Hd1.
        destruct (IH Hall rc1 d1 Hd1) as (d2 & Hd2 & Hk2).
        destruct (render_each _ ns rc1) as [bits rc2]. simpl in *.
        exists d2. split; [done|]. intros b c0 Hb.
        rewrite elem_of_app.
        destruct (Hk2 b c0 Hb) as [Hb1|?]; [|by auto].
        destruct (Hk1 b c0 Hb1); by auto. }
    destruct (render_each _ ns rc) as [result rc']. simpl in Hd', Hres.
    destruct c as [|n]; simpl.
    + exists d'. split; [done|]. intros b c0 Hb.
      destruct (Hkeys b c0 Hb); by auto.
    + simpl in Hc. apply bool_decide_eq_true in Hc.
      rewrite (store_captured_present _ _ _ _ Hd'), lookup_insert_eq.
      eexists. split; [done|]. intros b c0 Hb.
      destruct (decide (n = b)) as [->|Hne].
      * rewrite lookup_insert_eq in Hb. injection Hb as <-.
        right. right. by rewrite Hres.
      * rewrite lookup_insert_ne in Hb by done.
        destruct (Hkeys b c0 Hb); by auto.
  - intros s vars rc d _ Hd. exists d. split; [done|]. by left.
  - intros name nl IH vars rc d Hw Hd. simpl in Hw.
    destruct (IH (Some name) (<["block" := PBool true]> vars) rc d Hw Hd)
      as (d' & Hd' & Hkeys).
    exists d'. split; [done|]. intros b c Hb. simpl.
    rewrite elem_of_app, list_elem_of_singleton.
    destruct (Hkeys b c Hb) as [?|[?|[[= ->] ->]]]; by auto.
  - intros var value nl IH vars rc d Hw Hd. simpl in Hw.
    destruct (IH None (<[var := value]> vars) rc d Hw Hd)
      as (d' & Hd' & Hkeys).
    exists d'. split; [done|]. intros b c Hb. simpl.
    destruct (Hkeys b c Hb) as [?|[?|[[=] _]]]; by auto.
  - intros var1 var2 negate t f IHt IHf vars rc d Hw Hd. simpl in Hw.
    apply andb_true_iff in Hw as [Hwt Hwf]. simpl.
    destruct (ifequal_holds _ _ _ _).
    + destruct (IHt None vars rc d Hwt Hd) as (d' & Hd' & Hkeys).
      exists d'. split; [done|]. intros b c Hb.
      destruct (Hkeys b c Hb) as [?|[?|[[=] _]]]; by auto.
    + destruct (IHf None vars rc d Hwf Hd) as (d' & Hd' & Hkeys).
      exists d'. split; [done|]. intros b c Hb.
      destruct (Hkeys b c Hb) as [?|[?|[[=] _]]]; by auto.
  - intros filter_expr nl IH vars rc d Hw Hd. simpl in Hw.
    destruct (IH None vars rc d Hw Hd) as (d' & Hd' & Hkeys). simpl.
    destruct (NodeList_render nl vars rc) as [output rc'].
    exists d'. split; [done|]. intros b c Hb.
    destruct (Hkeys b c Hb) as [?|[?|[[=] _]]]; by auto.
  - intros cached nl IH vars rc d Hw Hd. simpl in Hw. simpl.
    destruct cached as [value|].
    + exists d. split; [done|]. by left.
    + destruct (IH None vars rc d Hw Hd) as (d' & Hd' & Hkeys).
      exists d'. split; [done|]. intros b c Hb.
      destruct (Hkeys b c Hb) as [?|[?|[[=] _]]]; by auto.
Qed.


Section CapturedOutputs.
Variable resolve_context : option (gmap string pyval) → gmap string pyval.

Lemma render_and_capture_sound self template b content :
  well_patched None (nodelist template) = true →
  (render_and_capture resolve_context self template).2 !! b = Some content →
  (b, content) ∈ rendered_blocks (nodelist template)
                   (resolve_context (context_data self)).
Proof.
  intros Hw. unfold render_and_capture, Template_render. simpl.
  set (T := target_blocks self). set (nl := nodelist template).
  set (vars := resolve_context (context_data self)).
  destruct (NodeList_render_captured_outputs (patch_tree T nl) None vars
              {["pjax_captured_blocks" := ∅]} ∅
              (well_patched_patch_tree T nl None Hw)
              (lookup_singleton_eq _ _))
    as (d' & Hd' & Hkeys).
  destruct (NodeList_render (patch_tree T nl) vars _) as [page rc].
  simpl in *. rewrite Hd'. simpl. intros Hb.
  destruct (Hkeys b content Hb) as [Hempty|[Hin|[[=] _]]].
  - by rewrite lookup_empty in Hempty.
  - by rewrite rendered_blocks_patch_tree in Hin.
Qed.


End CapturedOutputs.

(** ** What [pjax] and [pjaxtend] assign *)

Section Assignments.
Context {Args : Type}.
Implicit Types (view : @View Args) (request : HttpRequest) (args : Args).

(** C2: on a PJAX request, a view wrapped with [pjax(pjax_template)]
    returns the response of the view with its [template_name] replaced:
    by [pjax_template] when that is truthy; otherwise by the old value with
    every template name rewritten, ["-pjax"] inserted before the extension
    after the last dot, or appended when the name has no dot.  No other
    attribute of the response changes. *)
Theorem pjax_template_name_on_pjax pjax_template view request args resp :
  is_pjax request = true →
  view request args = Ok resp →
  ∃ resp',
    pjax pjax_template view request args = Ok resp' ∧
    (truthy_template_var pjax_template = true →
       template_name resp' = pjax_template) ∧
    (truthy_template_var pjax_template = false →
       template_name resp' = _pjaxify_template_var (template_name resp) ∧
       names_rewritten (template_name resp) (template_name resp')) ∧
    __class__ resp' = __class__ resp ∧
    context_data resp' = context_data resp ∧
    status_code resp' = status_code resp ∧
    headers resp' = headers resp ∧
    block_name resp' = block_name resp ∧
    title_variable resp' = title_variable resp ∧
    title_block resp' = title_block resp ∧
    _pjaxify_template_name "a.b" = "a-pjax.b".
Proof.
  intros Hp Hv. unfold pjax. rewrite Hv; simpl; rewrite Hp.
  destruct (truthy_template_var pjax_template); eexists; (split; [done|]);
    simpl; split_and!; try done.
  intros _. split; [done|]. apply _pjaxify_template_var_rewritten.
Qed.

(** C5: a view wrapped with [pjaxtend(parent, pjax_parent, context_var)],
    whose response carries a context dictionary, stores [pjax_parent]
    under [context_var] of [context_data] on a PJAX request and [parent] on
    any other request when [parent] is truthy; with a falsy [parent] the
    dictionary of a non-PJAX request is left as it is.  The other keys and
    the other attributes of the response do not change.  When the response
    has [context_data] [None], the decorated view raises [TypeError]
    wherever it would store, and returns the response otherwise. *)
Theorem pjaxtend_context parent pjax_parent context_var view request args
    resp :
  view request args = Ok resp →
  match context_data resp with
  | Some d =>
      ∃ resp' d',
        pjaxtend parent pjax_parent context_var view request args
          = Ok resp' ∧
        context_data resp' = Some d' ∧
        (∀ key, key ≠ context_var → d' !! key = d !! key) ∧
        (is_pjax request = true → d' !! context_var = Some pjax_parent) ∧
        (is_pjax request = false → truthy parent = true →
           d' !! context_var = Some parent) ∧
        (is_pjax request = false → truthy parent = false → d' = d) ∧
        __class__ resp' = __class__ resp ∧
        template_name resp' = template_name resp ∧
        status_code resp' = status_code resp ∧
        headers resp' = headers resp ∧
        block_name resp' = block_name resp ∧
        title_variable resp' = title_variable resp ∧
        title_block resp' = title_block resp
  | None =>
      pjaxtend parent pjax_parent context_var view request args =
        if is_pjax request || truthy parent
        then Raise (TypeError
                      "'NoneType' object does not support item assignment")
        else Ok resp
  end.
Proof.
  intros Hv. unfold pjaxtend, setitem_context_data. rewrite Hv; simpl.
  destruct (context_data resp) as [d|] eqn:Hd.
  - destruct (is_pjax request) eqn:Hp; [|destruct (truthy parent) eqn:Ht].
    + exists (set_context_data (Some (<[context_var := pjax_parent]> d)) resp),
             (<[context_var := pjax_parent]> d).
      split_and!; try done.
      * intros key Hk. by apply lookup_insert_ne.
      * intros _. apply lookup_insert_eq.
    + exists (set_context_data (Some (<[context_var := parent]> d)) resp),
             (<[context_var := parent]> d).
      split_and!; try done.
      * intros key Hk. by apply lookup_insert_ne.
      * intros ? ?. apply lookup_insert_eq.
    + exists resp, d. by split_and!.
  - by destruct (is_pjax request), (truthy parent).
Qed.

End Assignments.

Lemma pjax_template_name_on_pjax_witness :
  is_pjax pjax_request = true ∧
  sample_view pjax_request () = Ok sample_response ∧
  ∃ resp',
    pjax TNone sample_view pjax_request () = Ok resp' ∧
    template_name resp' = TList ["blog/post-pjax.html"; "post-pjax"] ∧
    context_data resp' = context_data sample_response.
Proof.
  split; [reflexivity|]. split; [reflexivity|].
  destruct (pjax_template_name_on_pjax TNone sample_view pjax_request ()
              sample_response eq_refl eq_refl)
    as (resp' & Hres & _ & Hrew & _ & Hctx & _).
  exists resp'. split; [exact Hres|]. split; [|exact Hctx].
  destruct (Hrew eq_refl) as [Hname _]. rewrite Hname. reflexivity.
Defined.

Lemma pjaxtend_context_witness :
  sample_view pjax_request () = Ok sample_response ∧
  ∃ resp' d',
    pjaxtend_default sample_view pjax_request () = Ok resp' ∧
    context_data resp' = Some d' ∧
    d' !! "parent" = Some (PStr "pjax.html") ∧
    d' !! "page_title" = Some (PStr "Hello") ∧
    template_name resp' = template_name sample_response.
Proof.
  split; [reflexivity|].
  destruct (pjaxtend_context (PStr "base.html") (PStr "pjax.html") "parent"
              sample_view pjax_request () sample_response eq_refl)
    as (resp' & d' & Hres & Hctx & Hother & Hpjax & _ & _ & _ & Hname & _).
  exists resp', d'. split; [exact Hres|]. split; [exact Hctx|].
  split; [exact (Hpjax eq_refl)|]. split; [|exact Hname].
  rewrite (Hother "page_title"); [reflexivity|discriminate].
Defined.

(** C5, counterexample: on a response built without a context (Django's
    default, [context_data] is [None]) the decorated view sets nothing and
    returns no response: the assignment of line 129 raises [TypeError]. *)
Lemma pjaxtend_context_counterexample :
  is_pjax pjax_request = true ∧
  sample_view_no_context pjax_request () = Ok sample_response_no_context ∧
  pjaxtend_default sample_view_no_context pjax_request () =
    Raise (TypeError "'NoneType' object does not support item assignment") ∧
  ¬ ∃ resp',
      pjaxtend_default sample_view_no_context pjax_request () = Ok resp'.
Proof.
  split; [reflexivity|]. split; [reflexivity|]. split; [reflexivity|].
  intros [resp' H]. discriminate H.
Qed.

(** ** [rendered_content] of a PJAX response *)


Section RenderedContent.
Context {Args : Type}.
Variable get_template : string → option Template.
Variable resolve_context : option (gmap string pyval) → gmap string pyval.


End RenderedContent.

#[local] Set Warnings "-clear-no-such-hyp".

Section RenderedContentFailures.
Variable get_template : string → option Template.
Variable resolve_context : option (gmap string pyval) → gmap string pyval.


End RenderedContentFailures.

(** ** Instances and counterexamples on the sample templates *)





(** ** Captured outputs and converted blocks *)

Lemma block_output_converted T b nl :
  ∀ vars, is_Some (block_output T b nl vars) → ∃ p, converted T nl p b.
Proof.
  revert nl.
  apply (NodeList_tree_ind
    (λ nl, ∀ vars, is_Some (block_output T b nl vars) →
             ∃ p, converted T nl p b)
    (λ n, ∀ vars, is_Some (block_output_node T b n vars) →
            ∀ nl i, nl_nodes nl !! i = Some n →
              ∃ p, converted T nl p b)).
  - intros c ns Hns vars [out Hout]. rewrite block_output_unfold in Hout.
    apply last_some_Some, list_elem_of_lookup in Hout as [i Hi].
    rewrite list_lookup_fmap in Hi.
    destruct (ns !! i) as [n|] eqn:Hn; simplify_eq/=.
    rewrite Forall_lookup in Hns.
    apply (Hns i n Hn vars (mk_is_Some _ _ Hi) (mkNodeList c ns) i Hn).
  - by intros s vars [? [=]].
  - intros name body IH vars. simpl. case_bool_decide as Hin.
    + case_bool_decide as Hb; [|by intros [? [=]]]. subst name.
      intros _ nl i Hi. exists [(i, 0)]. by eapply converted_here.
    + intros Hout nl i Hi. destruct (IH _ Hout) as [p Hp].
      exists ((i, 0) :: p). by eapply converted_in_block.
  - intros var value body IH vars Hout nl i Hi.
    destruct (IH _ Hout) as [p Hp].
    exists ((i, 0) :: p). by eapply converted_in_with.
  - by intros var1 var2 negate t f _ _ vars [? [=]].
  - intros filter_expr body IH vars Hout nl i Hi.
    destruct (IH _ Hout) as [p Hp].
    exists ((i, 0) :: p). by eapply converted_in_filter.
  - intros cached body IH vars. simpl.
    destruct cached; [by intros [? [=]]|].
    intros Hout nl i Hi. destruct (IH _ Hout) as [p Hp].
    exists ((i, 0) :: p). by eapply converted_in_cache.
Qed.

(** X16: what is captured under a name is the output of a block of that
    name.  For a template as parsed or patched by any earlier walks, every
    entry of the captured blocks after rendering holds what the node list
    of a block of that name, reached by the rendering, rendered to; the
    text is taken before an enclosing [FilterNode] transforms it. *)
Theorem captured_output_is_rendered_block
    (resolve_context : option (gmap string pyval) → gmap string pyval)
    self template b content :
  well_patched None (nodelist template) = true →
  (render_and_capture resolve_context self template).2 !! b = Some content →
  (b, content) ∈ rendered_blocks (nodelist template)
                   (resolve_context (context_data self)).
Proof. apply render_and_capture_sound. Qed.

Lemma captured_output_is_rendered_block_witness :
  well_patched None (nodelist sample_cached_template) = true ∧
  ((render_and_capture sample_resolve_context sample_cached_response
      sample_cached_template).2 !! "content") = Some "body" ∧
  (render_and_capture sample_resolve_context sample_cached_response
     sample_cached_template).1 = "<nav>cached</nav>[body]" ∧
  ("content", "body") ∈
    rendered_blocks (nodelist sample_cached_template)
      (sample_resolve_context (context_data sample_cached_response)).
Proof.
  split; [reflexivity|]. split; [reflexivity|]. split; [reflexivity|].
  exact (captured_output_is_rendered_block sample_resolve_context
           sample_cached_response sample_cached_template "content" "body"
           eq_refl eq_refl).
Defined.

(** X19: nothing is captured that the walk did not convert.  When the
    template carries no foreign patch, every name with an entry in the
    captured blocks after rendering is the name of a block that the walk
    reached and converted; so a target block inside another target block,
    or in a branch of an [IfEqualNode], is never captured. *)
Theorem captured_only_if_converted
    (resolve_context : option (gmap string pyval) → gmap string pyval)
    self template b :
  no_foreign_patches (target_blocks self) (nodelist template) →
  is_Some ((render_and_capture resolve_context self template).2 !! b) →
  ∃ p, converted (target_blocks self) (nodelist template) p b.
Proof.
  intros Hown.
  destruct (render_and_capture_spec resolve_context self template)
    as [_ Hcap].
  rewrite (Hcap Hown). apply block_output_converted.
Qed.

Lemma captured_only_if_converted_witness :
  no_foreign_patches (target_blocks sample_pjax_response)
    (nodelist sample_template) ∧
  is_Some ((render_and_capture sample_resolve_context sample_pjax_response
              sample_template).2 !! "content") ∧
  ∃ p, converted (target_blocks sample_pjax_response)
         (nodelist sample_template) p "content".
Proof.
  split; [reflexivity|].
  assert (is_Some ((render_and_capture sample_resolve_context
                      sample_pjax_response sample_template).2 !! "content"))
    as Hcaptured by (eexists; reflexivity).
  split; [exact Hcaptured|].
  exact (captured_only_if_converted sample_resolve_context
           sample_pjax_response sample_template "content" eq_refl Hcaptured).
Defined.

(** The converse fails: the walk converts the block [nav] under the
    [CacheNode], but the cache holds the fragment, the block is not
    rendered, and nothing is captured under its name. *)
Example converted_block_not_rendered :
  (∃ p, converted (target_blocks sample_nav_response)
          (nodelist sample_cached_template) p "nav") ∧
  (render_and_capture sample_resolve_context sample_nav_response
     sample_cached_template).2 !! "nav" = None ∧
  rendered_content sample_loader sample_resolve_context sample_nav_response
    = Raise (TemplateSyntaxError
               "PJAX block 'nav' does not exist or was not rendered").
Proof.
  split; [|by split].
  exists [(0, 0); (0, 0)].
  eapply converted_in_cache; [reflexivity|].
  eapply converted_here; [reflexivity|]. apply list_elem_of_here.
Qed.
